(** * Neighbor-degree statistics of NetworkX: [networkx/algorithms/neighbor_degree.py]

    A shallow embedding of [_average_nbr_deg], [_avg_deg_conn] and the six
    entry points built on them, with the properties of their specification.

    Conventions of the embedding:
    - a Python [dict] is a [gmap]; nodes are natural numbers;
    - Python numbers ([int] degrees, [float] sums and averages, edge weights)
      are exact rationals [Qc]; an unweighted degree used as a dictionary key
      stays a [nat]; where the rounding of floats decides a property, the
      accumulating loop is given once more on binary64 values ([Binary64]);
    - a call either returns a value or raises: [result] is the error monad,
      and [/] is [truediv], which raises [ZeroDivisionError] on a zero
      divisor as Python's float division does. *)

From Stdlib Require Import QArith Qcanon PrimFloat.
From stdpp Require Import gmap numbers list fin_maps strings.

Set Warnings "-inexact-float".

(** ** Exceptions and the error monad *)

Inductive exn : Type :=
  | NetworkXError (msg : string)
  | ZeroDivisionError.

Inductive result (A : Type) : Type :=
  | Ok (a : A)
  | Raise (e : exn).
Arguments Ok {A} a.
Arguments Raise {A} e.

#[global] Instance result_ret : MRet result := λ A a, Ok a.
#[global] Instance result_bind : MBind result := λ A B k m,
  match m with
  | Ok a => k a
  | Raise e => Raise e
  end.

(** [for x in l: s = f s x], stopping at the first exception. *)
Fixpoint for_each {A S : Type} (f : S → A → result S) (s : S) (l : list A)
  : result S :=
  match l with
  | [] => Ok s
  | x :: l' => s' ← f s x; for_each f s' l'
  end.

(** ** Numbers *)

Definition Qc_of_nat (n : nat) : Qc := Qc_of_Z (Z.of_nat n).

(** Python's [sum] over a list of numbers. *)
Definition Qc_sum (l : list Qc) : Qc := foldr Qcplus 0%Qc l.

(** Python's [a / b] on floats. *)
Definition truediv (a b : Qc) : result Qc :=
  if decide (b = 0%Qc) then Raise ZeroDivisionError else Ok (a / b)%Qc.

(** The binary64 value Python prints for the quotient of two integers:
    the correctly rounded division of the two (exactly representable)
    operands. *)
Fixpoint float_of_pos (p : positive) : float :=
  match p with
  | xH => 1%float
  | xO p' => PrimFloat.mul 2%float (float_of_pos p')
  | xI p' => PrimFloat.add (PrimFloat.mul 2%float (float_of_pos p')) 1%float
  end.
Definition float_of_Z (z : Z) : float :=
  match z with
  | Z0 => 0%float
  | Zpos p => float_of_pos p
  | Zneg p => PrimFloat.opp (float_of_pos p)
  end.
Definition float_of_Qc (q : Qc) : float :=
  PrimFloat.div (float_of_Z (Qnum q)) (float_of_Z (Zpos (Qden q))).

(** ** The graph collaborator *)

(** Modelled from the spec: the graph classes ([Graph], [DiGraph]) are not
    among the sources; section 6 of the specification gives the contract the
    algorithms consume.  [adj] is the per-node neighbor mapping
    ([neighbors_of], Python's [G[n]]: the successors on a directed graph),
    [pred] the predecessor mapping of a directed graph; an edge's attributes
    are reduced to the optional [weight] the algorithms read. *)
Record Graph : Type := mkGraph {
  is_directed : bool;
  adj : gmap nat (gmap nat (option Qc));
  pred : gmap nat (gmap nat (option Qc))
}.

(** [G[n]]; only ever applied to nodes that [nbunch_iter] has yielded. *)
Definition getitem (G : Graph) (n : nat) : gmap nat (option Qc) :=
  default ∅ (adj G !! n).

(** Modelled from the spec: the predecessors of [n] in a directed graph. *)
Definition getpred (G : Graph) (n : nat) : gmap nat (option Qc) :=
  default ∅ (pred G !! n).

(** [attrs.get('weight', 1)] *)
Definition get_weight (attrs : option Qc) : Qc := default 1%Qc attrs.

(** [G[n][nbr].get('weight', 1)] *)
Definition edge_weight (G : Graph) (n nbr : nat) : Qc :=
  get_weight (default None (getitem G n !! nbr)).

(** Iterating over [G]: the nodes of the graph. *)
Definition nodes_of (G : Graph) : list nat := (map_to_list (adj G)).*1.

(** Modelled from the spec: the iteration helper [G.nbunch_iter(nodes)],
    which "yields the graph's full node set or validates/filters the given
    selection".  A selection is a sequence of nodes, kept in its order and
    with its repetitions. *)
Definition nbunch_iter (G : Graph) (nodes : option (list nat)) : list nat :=
  match nodes with
  | None => nodes_of G
  | Some l => filter (λ n, is_Some (adj G !! n)) l
  end.

(** The three degree accessors [G.degree], [G.in_degree], [G.out_degree]. *)
Inductive degree_method : Type :=
  | G_degree
  | G_in_degree
  | G_out_degree.

(** Modelled from the spec: "accessor(node, weighted=False) returns the edge
    count", restricted to inbound or outbound edges for the in/out
    accessors. *)
Definition degree_count (dm : degree_method) (G : Graph) (n : nat) : nat :=
  match dm with
  | G_out_degree => size (getitem G n)
  | G_in_degree => size (getpred G n)
  | G_degree =>
      if is_directed G then size (getpred G n) + size (getitem G n)
      else size (getitem G n)
  end.

Definition weight_sum (nbrs : gmap nat (option Qc)) : Qc :=
  Qc_sum (get_weight <$> (map_to_list nbrs).*2).

(** Modelled from the spec: "accessor(node, weighted=True) returns the sum of
    incident edge weights (default weight 1 if unset)". *)
Definition degree_weight (dm : degree_method) (G : Graph) (n : nat) : Qc :=
  match dm with
  | G_out_degree => weight_sum (getitem G n)
  | G_in_degree => weight_sum (getpred G n)
  | G_degree =>
      if is_directed G
      then (weight_sum (getpred G n) + weight_sum (getitem G n))%Qc
      else weight_sum (getitem G n)
  end.

(** [degree_method(n, weighted=weighted)] on a single node. *)
Definition degree (dm : degree_method) (G : Graph) (n : nat) (weighted : bool)
  : Qc :=
  if weighted then degree_weight dm G n else Qc_of_nat (degree_count dm G n).

(** [degree_method(nbunch)] on a collection of nodes: the dictionary of the
    unweighted degrees of those of them that are nodes of the graph. *)
Definition degree_dict (dm : degree_method) (G : Graph) (nbunch : list nat)
  : gmap nat nat :=
  list_to_map ((λ n, (n, degree_count dm G n))
                 <$> nbunch_iter G (Some nbunch)).

(** ** [_average_nbr_deg] *)

(** [nbrdeg = degree_method(G[n])] *)
Definition nbrdeg_of (G : Graph) (dm : degree_method) (n : nat)
  : gmap nat nat :=
  degree_dict dm G (map_to_list (getitem G n)).*1.

(** [float(sum(nbrv))], with [nbrv] chosen by [weighted]. *)
Definition nbr_total (G : Graph) (dm : degree_method) (n : nat)
    (weighted : bool) : Qc :=
  let nbrdeg := nbrdeg_of G dm n in
  if weighted
  then Qc_sum ((λ '(nbr, d), (edge_weight G n nbr * Qc_of_nat d)%Qc)
                 <$> map_to_list nbrdeg)
  else Qc_of_nat (sum_list (map_to_list nbrdeg).*2).

(** The body of the loop over [G.nbunch_iter(nodes)]. *)
Definition avg_nbr_step (G : Graph) (dm : degree_method) (weighted : bool)
    (avg_nbr_deg : gmap nat Qc) (n : nat) : result (gmap nat Qc) :=
  let norm := degree dm G n weighted in
  let avg_nbr_deg := <[n := nbr_total G dm n weighted]> avg_nbr_deg in
  if decide (0 < norm)%Qc
  then q ← truediv (default 0%Qc (avg_nbr_deg !! n)) norm;
       Ok (<[n := q]> avg_nbr_deg)
  else Ok avg_nbr_deg.

Definition _average_nbr_deg (G : Graph) (dm : degree_method)
    (nodes : option (list nat)) (weighted : bool) : result (gmap nat Qc) :=
  for_each (avg_nbr_step G dm weighted) ∅ (nbunch_iter G nodes).

Definition not_defined : exn :=
  NetworkXError "Not defined for undirected graphs.".

Definition average_neighbor_degree (G : Graph) (nodes : option (list nat))
    (weighted : bool) : result (gmap nat Qc) :=
  _average_nbr_deg G G_degree nodes weighted.

Definition average_neighbor_in_degree (G : Graph) (nodes : option (list nat))
    (weighted : bool) : result (gmap nat Qc) :=
  if negb (is_directed G) then Raise not_defined
  else _average_nbr_deg G G_in_degree nodes weighted.

Definition average_neighbor_out_degree (G : Graph) (nodes : option (list nat))
    (weighted : bool) : result (gmap nat Qc) :=
  if negb (is_directed G) then Raise not_defined
  else _average_nbr_deg G G_out_degree nodes weighted.

(** ** [_avg_deg_conn] *)

(** [d[k] += x] on a [defaultdict(float)]. *)
Definition dd_add (d : gmap nat Qc) (k : nat) (x : Qc) : gmap nat Qc :=
  <[k := (default 0%Qc (d !! k) + x)%Qc]> d.

(** The body of the loop over [degree_method(node_iter).items()], on the
    pair of accumulators [(dsum, dnorm)]. *)
Definition conn_step (G : Graph) (dm : degree_method) (weighted : bool)
    (acc : gmap nat Qc * gmap nat Qc) (nk : nat * nat)
  : gmap nat Qc * gmap nat Qc :=
  let '(dsum, dnorm) := acc in
  let '(n, k) := nk in
  let dnorm :=
    if weighted then dd_add dnorm k (degree dm G n weighted)
    else dd_add dnorm k (Qc_of_nat k) in
  (dd_add dsum k (nbr_total G dm n weighted), dnorm).

(** The first loop, run on the accumulators [acc]. *)
Definition conn_loop (G : Graph) (dm : degree_method)
    (nodes : option (list nat)) (weighted : bool)
    (acc : gmap nat Qc * gmap nat Qc) : gmap nat Qc * gmap nat Qc :=
  let node_iter :=
    match nodes with
    | None => nodes_of G
    | Some l => nbunch_iter G (Some l)
    end in
  foldl (conn_step G dm weighted) acc
        (map_to_list (degree_dict dm G node_iter)).

(** The accumulators when the first loop ends: it starts on
    [dsum = defaultdict(float)] and [dnorm = defaultdict(float)]. *)
Definition conn_acc (G : Graph) (dm : degree_method)
    (nodes : option (list nat)) (weighted : bool)
  : gmap nat Qc * gmap nat Qc :=
  conn_loop G dm nodes weighted (∅, ∅).

(** The body of the loop over [dsum.items()]. *)
Definition conn_norm_step (dnorm : gmap nat Qc) (dc : gmap nat Qc)
    (kavg : nat * Qc) : result (gmap nat Qc) :=
  let '(k, avg) := kavg in
  let dc := <[k := avg]> dc in
  if decide (0 < avg)%Qc
  then q ← truediv (default 0%Qc (dc !! k)) (default 0%Qc (dnorm !! k));
       Ok (<[k := q]> dc)
  else Ok dc.

Definition _avg_deg_conn (G : Graph) (dm : degree_method)
    (nodes : option (list nat)) (weighted : bool) : result (gmap nat Qc) :=
  let '(dsum, dnorm) := conn_acc G dm nodes weighted in
  for_each (conn_norm_step dnorm) ∅ (map_to_list dsum).

Definition average_degree_connectivity (G : Graph) (nodes : option (list nat))
    (weighted : bool) : result (gmap nat Qc) :=
  _avg_deg_conn G G_degree nodes weighted.

Definition average_in_degree_connectivity (G : Graph)
    (nodes : option (list nat)) (weighted : bool) : result (gmap nat Qc) :=
  if negb (is_directed G) then Raise not_defined
  else _avg_deg_conn G G_in_degree nodes weighted.

Definition average_out_degree_connectivity (G : Graph)
    (nodes : option (list nat)) (weighted : bool) : result (gmap nat Qc) :=
  if negb (is_directed G) then Raise not_defined
  else _avg_deg_conn G G_out_degree nodes weighted.

Definition k_nearest_neighbors := average_degree_connectivity.
Definition neighbor_connectivity := average_degree_connectivity.

(** ** Example graphs *)

(** An undirected graph from its edges: each edge is stored under both of
    its end points. *)
Definition add_half (u v : nat) (a : option Qc)
    (m : gmap nat (gmap nat (option Qc))) : gmap nat (gmap nat (option Qc)) :=
  <[u := <[v := a]> (default ∅ (m !! u))]> m.

Definition add_node (n : nat) (m : gmap nat (gmap nat (option Qc)))
  : gmap nat (gmap nat (option Qc)) :=
  <[n := default ∅ (m !! n)]> m.

Definition undirected (nodes : list nat) (edges : list (nat * nat * option Qc))
  : Graph :=
  let m := foldr add_node ∅ nodes in
  let a := foldr (λ '(u, v, a) m, add_half u v a (add_half v u a m)) m edges in
  mkGraph false a ∅.

Definition directed_graph (nodes : list nat)
    (edges : list (nat * nat * option Qc)) : Graph :=
  let m := foldr add_node ∅ nodes in
  mkGraph true
    (foldr (λ '(u, v, a) m, add_half u v a m) m edges)
    (foldr (λ '(u, v, a) m, add_half v u a m) m edges).

(** [nx.path_graph(4)] *)
Definition path4 : Graph :=
  undirected [0; 1; 2; 3] [(0, 1, None); (1, 2, None); (2, 3, None)].

(** [path_graph(4)] with [G.edge[0][1]['weight'] = 5] and
    [G.edge[2][3]['weight'] = 3] *)
Definition path4_w53 : Graph :=
  undirected [0; 1; 2; 3]
    [(0, 1, Some (Qc_of_Z 5)); (1, 2, None); (2, 3, Some (Qc_of_Z 3))].

(** [path_graph(4)] with [G.edge[1][2]['weight'] = 3] *)
Definition path4_w3 : Graph :=
  undirected [0; 1; 2; 3] [(0, 1, None); (1, 2, Some (Qc_of_Z 3)); (2, 3, None)].

(** [G = nx.DiGraph(); G.add_path([0,1,2,3])] *)
Definition dipath4 : Graph :=
  directed_graph [0; 1; 2; 3] [(0, 1, None); (1, 2, None); (2, 3, None)].

(** An undirected graph with one edge 0-1 of weight -1. *)
Definition edge_neg : Graph :=
  undirected [0; 1] [(0, 1, Some (Qc_of_Z (-1)))].

(** The rational values of a result, for comparison with literals. *)
Definition values_of (r : result (gmap nat Qc)) : result (gmap nat Q) :=
  match r with
  | Ok m => Ok (this <$> m)
  | Raise e => Raise e
  end.

Definition floats_of (r : result (gmap nat Qc)) : result (gmap nat float) :=
  match r with
  | Ok m => Ok (float_of_Qc <$> m)
  | Raise e => Raise e
  end.

(** ** The variants, by accessor *)

(** The entry point of the per-node average that uses accessor [dm]. *)
Definition neighbor_variant (dm : degree_method)
  : Graph → option (list nat) → bool → result (gmap nat Qc) :=
  match dm with
  | G_degree => average_neighbor_degree
  | G_in_degree => average_neighbor_in_degree
  | G_out_degree => average_neighbor_out_degree
  end.

(** The entry point of the degree connectivity that uses accessor [dm]. *)
Definition connectivity_variant (dm : degree_method)
  : Graph → option (list nat) → bool → result (gmap nat Qc) :=
  match dm with
  | G_degree => average_degree_connectivity
  | G_in_degree => average_in_degree_connectivity
  | G_out_degree => average_out_degree_connectivity
  end.

(** What the specification gives as the result for node [n]: the sum over the
    neighbors divided by the node's own degree when that is positive, the
    sum itself otherwise. *)
Definition avg_nbr_value (G : Graph) (dm : degree_method) (weighted : bool)
    (n : nat) : Qc :=
  if decide (0 < degree dm G n weighted)%Qc
  then (nbr_total G dm n weighted / degree dm G n weighted)%Qc
  else nbr_total G dm n weighted.

(** ** The accumulators of the connectivity, read back *)


(** The nodes a selection stands for, each once. *)
Definition selected (G : Graph) (nodes : option (list nat)) : list nat :=
  elements (list_to_set (nbunch_iter G nodes) : gset nat).

(** The value the last loop of [_avg_deg_conn] leaves under key [k] for the
    accumulated sum [avg]: divided by [dnorm[k]] when [avg > 0], as it is
    otherwise. *)
Definition conn_value (dnorm : gmap nat Qc) (k : nat) (avg : Qc) : Qc :=
  if decide (0 < avg)%Qc then (avg / default 0%Qc (dnorm !! k))%Qc else avg.

(** The entries of [dsum] at which the last loop divides by zero. *)
Definition zero_norm (dnorm : gmap nat Qc) (kavg : nat * Qc) : Prop :=
  (0 < kavg.2)%Qc ∧ default 0%Qc (dnorm !! kavg.1) = 0%Qc.

#[global] Instance zero_norm_dec dnorm kavg : Decision (zero_norm dnorm kavg).
Proof. unfold zero_norm. apply _. Defined.

(** What the first loop of [_avg_deg_conn] adds to [dnorm[k]] for the item
    [(n, k)]. *)
Definition norm_term (G : Graph) (dm : degree_method) (weighted : bool)
    (nk : nat * nat) : Qc :=
  if weighted then degree dm G nk.1 weighted else Qc_of_nat nk.2.

(** The value the specification words for key [k]: the sum itself when it
    is zero, the quotient in every other case. *)
Definition conn_value_zero_test (dnorm : gmap nat Qc) (k : nat) (avg : Qc)
  : Qc :=
  if decide (avg = 0%Qc) then avg else (avg / default 0%Qc (dnorm !! k))%Qc.

(** The accumulators never hold a positive sum over a zero norm, and no
    negative norm. *)
Definition conn_inv (acc : gmap nat Qc * gmap nat Qc) : Prop :=
  ∀ k, (0 ≤ default 0%Qc (acc.2 !! k))%Qc
       ∧ ((0 < default 0%Qc (acc.1 !! k))%Qc
          → (0 < default 0%Qc (acc.2 !! k))%Qc).

(** ** Successors *)

(** Every neighbor recorded in [adj] is a node of the graph, as the graph
    classes maintain. *)
Definition closed (G : Graph) : Prop :=
  map_Forall (λ _ (nbrs : gmap nat (option Qc)), dom nbrs ⊆ dom (adj G))
    (adj G).

#[global] Instance closed_dec G : Decision (closed G).
Proof. unfold closed. apply _. Defined.

(** The sum over the neighbors as the specification words it: over the
    successors [G[n]] of [n], each one's degree under the active accessor,
    scaled by the weight of the edge from [n] when [weighted]. *)
Definition succ_total (G : Graph) (dm : degree_method) (n : nat)
    (weighted : bool) : Qc :=
  if weighted
  then Qc_sum ((λ '(nbr, attrs),
                  (get_weight attrs * Qc_of_nat (degree_count dm G nbr))%Qc)
                 <$> map_to_list (getitem G n))
  else Qc_of_nat (sum_list (degree_count dm G
                              <$> (map_to_list (getitem G n)).*1)).

(** ** Calls in sequence *)

(** The dictionaries the functions build ([avg_nbr_deg], [dsum], [dnorm],
    [dc]), kept from one call to the next as the previous call left them:
    whatever a call could see of an earlier one. *)
Record dicts : Type := mkDicts {
  d_avg_nbr_deg : gmap nat Qc;
  d_dsum : gmap nat Qc;
  d_dnorm : gmap nat Qc;
  d_dc : gmap nat Qc
}.

(** [_average_nbr_deg] on these dictionaries: [avg_nbr_deg = {}] comes
    first, the loop fills it, and it is returned. *)
Definition run_average_nbr_deg (G : Graph) (dm : degree_method)
    (nodes : option (list nat)) (weighted : bool) (h : dicts)
  : result (gmap nat Qc) * dicts :=
  let h := mkDicts ∅ (d_dsum h) (d_dnorm h) (d_dc h) in
  match for_each (avg_nbr_step G dm weighted) (d_avg_nbr_deg h)
          (nbunch_iter G nodes) with
  | Ok m => (Ok m, mkDicts m (d_dsum h) (d_dnorm h) (d_dc h))
  | Raise e => (Raise e, h)
  end.

(** [_avg_deg_conn] on these dictionaries: [dsum] and [dnorm] are set to
    fresh [defaultdict(float)]s before the first loop, [dc = {}] before the
    second. *)
Definition run_avg_deg_conn (G : Graph) (dm : degree_method)
    (nodes : option (list nat)) (weighted : bool) (h : dicts)
  : result (gmap nat Qc) * dicts :=
  let h := mkDicts (d_avg_nbr_deg h) ∅ ∅ (d_dc h) in
  let acc := conn_loop G dm nodes weighted (d_dsum h, d_dnorm h) in
  let h := mkDicts (d_avg_nbr_deg h) acc.1 acc.2 ∅ in
  match for_each (conn_norm_step (d_dnorm h)) (d_dc h)
          (map_to_list (d_dsum h)) with
  | Ok m => (Ok m, mkDicts (d_avg_nbr_deg h) (d_dsum h) (d_dnorm h) m)
  | Raise e => (Raise e, h)
  end.

(** The six entry points. *)
Inductive entry : Type :=
  | Average_neighbor_degree
  | Average_neighbor_in_degree
  | Average_neighbor_out_degree
  | Average_degree_connectivity
  | Average_in_degree_connectivity
  | Average_out_degree_connectivity.

(** A call as a function of its arguments alone. *)
Definition call (e : entry)
  : Graph → option (list nat) → bool → result (gmap nat Qc) :=
  match e with
  | Average_neighbor_degree => average_neighbor_degree
  | Average_neighbor_in_degree => average_neighbor_in_degree
  | Average_neighbor_out_degree => average_neighbor_out_degree
  | Average_degree_connectivity => average_degree_connectivity
  | Average_in_degree_connectivity => average_in_degree_connectivity
  | Average_out_degree_connectivity => average_out_degree_connectivity
  end.

(** A call on the dictionaries left by the calls before it: the guard of the
    in/out variants first, then the body. *)
Definition run (e : entry) (G : Graph) (nodes : option (list nat))
    (weighted : bool) (h : dicts) : result (gmap nat Qc) * dicts :=
  match e with
  | Average_neighbor_degree => run_average_nbr_deg G G_degree nodes weighted h
  | Average_neighbor_in_degree =>
      if negb (is_directed G) then (Raise not_defined, h)
      else run_average_nbr_deg G G_in_degree nodes weighted h
  | Average_neighbor_out_degree =>
      if negb (is_directed G) then (Raise not_defined, h)
      else run_average_nbr_deg G G_out_degree nodes weighted h
  | Average_degree_connectivity => run_avg_deg_conn G G_degree nodes weighted h
  | Average_in_degree_connectivity =>
      if negb (is_directed G) then (Raise not_defined, h)
      else run_avg_deg_conn G G_in_degree nodes weighted h
  | Average_out_degree_connectivity =>
      if negb (is_directed G) then (Raise not_defined, h)
      else run_avg_deg_conn G G_out_degree nodes weighted h
  end.

(** ** Degree classes *)

(** The selected nodes whose degree under the accessor is [k]. *)
Definition class_of (G : Graph) (dm : degree_method)
    (nodes : option (list nat)) (k : nat) : list nat :=
  filter (λ n, degree_count dm G n = k) (selected G nodes).

(** ** Directed graphs *)

(** The predecessor mapping records every edge of [adj] from its other end,
    as [DiGraph] keeps it. *)
Definition mirrored (G : Graph) : Prop :=
  map_Forall (λ n (nbrs : gmap nat (option Qc)),
                map_Forall (λ m (_ : option Qc), is_Some (getpred G m !! n))
                  nbrs)
    (adj G).

#[global] Instance mirrored_dec G : Decision (mirrored G).
Proof. unfold mirrored. apply _. Defined.

(** ** Graphs without weights *)

(** Every edge has the weight 1, set or by default. *)
Definition unit_weights (G : Graph) : Prop :=
  map_Forall (λ _ (nbrs : gmap nat (option Qc)),
                map_Forall (λ _ a, get_weight a = 1%Qc) nbrs) (adj G)
  ∧ map_Forall (λ _ (nbrs : gmap nat (option Qc)),
                  map_Forall (λ _ a, get_weight a = 1%Qc) nbrs) (pred G).

#[global] Instance unit_weights_dec G : Decision (unit_weights G).
Proof. unfold unit_weights. apply _. Defined.

(** A directed graph with the edges 3 -> 0, 0 -> 1 and 0 -> 2. *)
Definition fork : Graph :=
  directed_graph [0; 1; 2; 3] [(3, 0, None); (0, 1, None); (0, 2, None)].

(** ** The first loop of [_avg_deg_conn] in binary64 *)

(** The accumulation of lines 127-137 once more, with Python's floats as
    they are: edge weights and sums are binary64 values, [+] and [*] round,
    and a dictionary is the list of its items in the order they were
    inserted, which is the order its loops run in.  An unset weight is the
    integer 1, an unweighted degree an integer; they enter float arithmetic
    as the binary64 values they convert to. *)
Module Binary64.

Record Graph : Type := mkGraph {
  is_directed : bool;
  adj : list (nat * list (nat * option float));
  pred : list (nat * list (nat * option float))
}.

(** [d.get(k)] *)
Fixpoint assoc {A : Type} (k : nat) (d : list (nat * A)) : option A :=
  match d with
  | [] => None
  | (k', v) :: d' => if decide (k' = k) then Some v else assoc k d'
  end.

(** [d[k] = v] *)
Fixpoint setitem {A : Type} (k : nat) (v : A) (d : list (nat * A))
  : list (nat * A) :=
  match d with
  | [] => [(k, v)]
  | (k', v') :: d' =>
      if decide (k' = k) then (k, v) :: d' else (k', v') :: setitem k v d'
  end.

Definition getitem (G : Graph) (n : nat) : list (nat * option float) :=
  default [] (assoc n (adj G)).

Definition getpred (G : Graph) (n : nat) : list (nat * option float) :=
  default [] (assoc n (pred G)).

Definition get_weight (attrs : option float) : float := default 1%float attrs.

Definition edge_weight (G : Graph) (n nbr : nat) : float :=
  get_weight (default None (assoc nbr (getitem G n))).

Definition nodes_of (G : Graph) : list nat := (adj G).*1.

Definition nbunch_iter (G : Graph) (nodes : option (list nat)) : list nat :=
  match nodes with
  | None => nodes_of G
  | Some l => filter (λ n, is_Some (assoc n (adj G))) l
  end.

(** Python's [sum]: from 0, left to right. *)
Definition fsum (l : list float) : float := foldl PrimFloat.add 0%float l.

Definition float_of_nat (n : nat) : float := float_of_Z (Z.of_nat n).

Definition degree_count (dm : degree_method) (G : Graph) (n : nat) : nat :=
  match dm with
  | G_out_degree => length (getitem G n)
  | G_in_degree => length (getpred G n)
  | G_degree =>
      if is_directed G then length (getpred G n) + length (getitem G n)
      else length (getitem G n)
  end.

Definition weight_sum (nbrs : list (nat * option float)) : float :=
  fsum (get_weight <$> nbrs.*2).

Definition degree_weight (dm : degree_method) (G : Graph) (n : nat) : float :=
  match dm with
  | G_out_degree => weight_sum (getitem G n)
  | G_in_degree => weight_sum (getpred G n)
  | G_degree =>
      if is_directed G
      then PrimFloat.add (weight_sum (getpred G n)) (weight_sum (getitem G n))
      else weight_sum (getitem G n)
  end.

Definition degree (dm : degree_method) (G : Graph) (n : nat) (weighted : bool)
  : float :=
  if weighted then degree_weight dm G n
  else float_of_nat (degree_count dm G n).

Definition degree_dict (dm : degree_method) (G : Graph) (nbunch : list nat)
  : list (nat * nat) :=
  foldl (λ d n, setitem n (degree_count dm G n) d) []
        (nbunch_iter G (Some nbunch)).

Definition nbrdeg_of (G : Graph) (dm : degree_method) (n : nat)
  : list (nat * nat) :=
  degree_dict dm G (getitem G n).*1.

Definition nbr_total (G : Graph) (dm : degree_method) (n : nat)
    (weighted : bool) : float :=
  let nbrdeg := nbrdeg_of G dm n in
  if weighted
  then fsum ((λ '(nbr, d),
                PrimFloat.mul (edge_weight G n nbr) (float_of_nat d))
               <$> nbrdeg)
  else float_of_nat (sum_list nbrdeg.*2).

(** [d[k] += x] on a [defaultdict(float)]. *)
Definition dd_add (d : list (nat * float)) (k : nat) (x : float)
  : list (nat * float) :=
  setitem k (PrimFloat.add (default 0%float (assoc k d)) x) d.

Definition conn_step (G : Graph) (dm : degree_method) (weighted : bool)
    (acc : list (nat * float) * list (nat * float)) (nk : nat * nat)
  : list (nat * float) * list (nat * float) :=
  let '(dsum, dnorm) := acc in
  let '(n, k) := nk in
  let dnorm :=
    if weighted then dd_add dnorm k (degree dm G n weighted)
    else dd_add dnorm k (float_of_nat k) in
  (dd_add dsum k (nbr_total G dm n weighted), dnorm).

Definition conn_acc (G : Graph) (dm : degree_method)
    (nodes : option (list nat)) (weighted : bool)
  : list (nat * float) * list (nat * float) :=
  let node_iter :=
    match nodes with
    | None => nodes_of G
    | Some l => nbunch_iter G (Some l)
    end in
  foldl (conn_step G dm weighted) ([], []) (degree_dict dm G node_iter).


End Binary64.

(** The neighbor sum of a node without weights, as the integer it is. *)
Definition nbr_count_total (G : Graph) (dm : degree_method) (n : nat) : nat :=
  sum_list (map_to_list (nbrdeg_of G dm n)).*2.

(** * Properties *)

(** ** The documented examples, evaluated *)

Example doc_average_neighbor_degree :
  values_of (average_neighbor_degree path4_w53 None false)
  = Ok (list_to_map [(0, Qmake 2 1); (1, Qmake 3 2); (2, Qmake 3 2); (3, Qmake 2 1)]).
Proof. vm_compute. reflexivity. Qed.

Example doc_average_neighbor_in_degree :
  values_of (average_neighbor_in_degree dipath4 None false)
  = Ok (list_to_map [(0, Qmake 1 1); (1, Qmake 1 1); (2, Qmake 1 1); (3, Qmake 0 1)]).
Proof. vm_compute. reflexivity. Qed.

Example doc_average_neighbor_out_degree :
  values_of (average_neighbor_out_degree dipath4 None false)
  = Ok (list_to_map [(0, Qmake 1 1); (1, Qmake 1 1); (2, Qmake 0 1); (3, Qmake 0 1)]).
Proof. vm_compute. reflexivity. Qed.

Example doc_k_nearest_neighbors :
  values_of (k_nearest_neighbors path4_w3 None false)
  = Ok (list_to_map [(1, Qmake 2 1); (2, Qmake 3 2)]).
Proof. vm_compute. reflexivity. Qed.

Example doc_k_nearest_neighbors_weighted :
  values_of (k_nearest_neighbors path4_w3 None true)
  = Ok (list_to_map [(1, Qmake 2 1); (2, Qmake 7 4)]).
Proof. vm_compute. reflexivity. Qed.

(** The last loop of [_avg_deg_conn] tests the sum, not the norm: in the
    directed path 0 -> 1 -> 2 -> 3 the class of in-degree 0 has sum 1.0 over
    norm 0.0. *)
Example in_degree_connectivity_raises :
  average_in_degree_connectivity dipath4 None false = Raise ZeroDivisionError.
Proof. vm_compute. reflexivity. Qed.

(** ** Numbers: basic facts *)

#[global] Instance this_inj : Inj (=) (=) this.
Proof. intros q q' H. apply Qc_is_canon. by rewrite H. Qed.

Lemma values_of_inj (r r' : result (gmap nat Qc)) :
  values_of r = values_of r' → r = r'.
Proof.
  destruct r as [m|e], r' as [m'|e']; simpl; intros [= H]; f_equal; try done.
  by apply (inj (fmap this)) in H.
Qed.

Lemma Qc_of_nat_0 : Qc_of_nat 0 = 0%Qc.
Proof. apply Z2Qc_inj_0. Qed.

Lemma Qc_of_nat_add (a b : nat) :
  Qc_of_nat (a + b) = (Qc_of_nat a + Qc_of_nat b)%Qc.
Proof. unfold Qc_of_nat. by rewrite Nat2Z.inj_add, Z2Qc_inj_add. Qed.

Lemma Qc_sum_of_nat {A} (f : A → nat) (l : list A) :
  Qc_sum ((λ x, Qc_of_nat (f x)) <$> l) = Qc_of_nat (sum_list (f <$> l)).
Proof.
  induction l as [|x l IH]; [symmetry; apply Qc_of_nat_0|].
  rewrite !fmap_cons. cbn [Qc_sum foldr sum_list_with].
  fold (Qc_sum ((λ x, Qc_of_nat (f x)) <$> l)).
  by rewrite IH, Qc_of_nat_add.
Qed.

Lemma Qc_of_nat_pos (n : nat) : (0 < Qc_of_nat n)%Qc ↔ 0 < n.
Proof.
  unfold Qc_of_nat. rewrite <-Z2Qc_inj_0, <-Z2Qc_inj_lt. lia.
Qed.

Lemma Qc_of_nat_nonneg (n : nat) : (0 ≤ Qc_of_nat n)%Qc.
Proof.
  unfold Qc_of_nat. rewrite <-Z2Qc_inj_0, <-Z2Qc_inj_le. lia.
Qed.

Lemma truediv_pos (a b : Qc) : (0 < b)%Qc → truediv a b = Ok (a / b)%Qc.
Proof.
  intros Hb. unfold truediv.
  destruct (decide (b = 0%Qc)) as [->|]; [|done].
  by apply Qclt_not_eq in Hb.
Qed.

Lemma Qc_zero_div (b : Qc) : (0 / b)%Qc = 0%Qc.
Proof. unfold Qcdiv. apply Qcmult_0_l. Qed.

(** ** [_average_nbr_deg]: the loop *)

Lemma avg_nbr_step_ok G dm weighted (acc : gmap nat Qc) n :
  avg_nbr_step G dm weighted acc n
  = Ok (<[n := avg_nbr_value G dm weighted n]> acc).
Proof.
  unfold avg_nbr_step, avg_nbr_value. case_decide as Hn; [|done].
  rewrite lookup_insert_eq. simpl. rewrite truediv_pos by done.
  cbn. by rewrite insert_insert_eq.
Qed.

Lemma for_each_avg_nbr G dm weighted (acc : gmap nat Qc) l :
  for_each (avg_nbr_step G dm weighted) acc l
  = Ok (foldl (λ m n, <[n := avg_nbr_value G dm weighted n]> m) acc l).
Proof.
  revert acc. induction l as [|n l IH]; intros acc; [done|].
  simpl. rewrite avg_nbr_step_ok. cbn. apply IH.
Qed.

Lemma foldl_insert_lookup (f : nat → Qc) (acc : gmap nat Qc) l n :
  foldl (λ m n, <[n := f n]> m) acc l !! n
  = if decide (n ∈ l) then Some (f n) else acc !! n.
Proof.
  revert acc. induction l as [|a l IH]; intros acc.
  - by rewrite decide_False by apply not_elem_of_nil.
  - cbn [foldl]. rewrite IH. destruct (decide (n ∈ l)) as [Hl|Hl].
    + by rewrite decide_True by (by right).
    + destruct (decide (n = a)) as [->|Hne].
      * by rewrite lookup_insert_eq, decide_True by (by left).
      * rewrite lookup_insert_ne by done.
        rewrite decide_False; [done|]. rewrite elem_of_cons. tauto.
Qed.

Lemma _average_nbr_deg_ok G dm nodes weighted :
  ∃ r, _average_nbr_deg G dm nodes weighted = Ok r
       ∧ ∀ n, r !! n = if decide (n ∈ nbunch_iter G nodes)
                       then Some (avg_nbr_value G dm weighted n) else None.
Proof.
  unfold _average_nbr_deg. rewrite for_each_avg_nbr. eexists. split; [done|].
  intros n. by rewrite foldl_insert_lookup, lookup_empty.
Qed.

(** A node without neighbors: nothing to sum. *)
Lemma nbr_total_empty G dm n weighted :
  getitem G n = ∅ → nbr_total G dm n weighted = 0%Qc.
Proof.
  intros HG. unfold nbr_total, nbrdeg_of, degree_dict. rewrite HG.
  rewrite map_to_list_empty. simpl. rewrite map_to_list_empty.
  destruct weighted; [done|apply Qc_of_nat_0].
Qed.

Lemma avg_nbr_value_empty G dm n weighted :
  getitem G n = ∅ → avg_nbr_value G dm weighted n = 0%Qc.
Proof.
  intros HG. unfold avg_nbr_value. rewrite nbr_total_empty by done.
  case_decide; [apply Qc_zero_div|done].
Qed.

(** For the plain and the out-degree accessor, the edges counted at [n]
    include the ones to its neighbors. *)
Lemma degree_count_zero_getitem G dm n :
  dm ≠ G_in_degree → degree_count dm G n = 0 → getitem G n = ∅.
Proof.
  intros Hdm Hz. apply map_size_empty_iff.
  destruct dm; simpl in Hz; [|done|done].
  destruct (is_directed G); lia.
Qed.

Lemma neighbor_variant_directed dm G nodes weighted :
  dm = G_degree ∨ is_directed G = true →
  neighbor_variant dm G nodes weighted = _average_nbr_deg G dm nodes weighted.
Proof.
  intros [->|Hd]; [done|]. destruct dm; simpl; [done| |];
    unfold average_neighbor_in_degree, average_neighbor_out_degree;
    by rewrite Hd.
Qed.

Ltac in_list := rewrite list_elem_of_In; vm_compute; tauto.

(** ** Per-node averages *)

(** C7: in [average_neighbor_degree], [average_neighbor_in_degree] and
    [average_neighbor_out_degree] (the latter two on a directed graph) the
    call never raises: it returns a mapping in which every selected node [n]
    has the sum over its neighbors divided by its own degree, taken with the
    same accessor and the same [weighted] flag, when that degree is strictly
    positive, and the undivided sum otherwise; no division by zero occurs,
    and a node without neighbors gets 0.0. *)
Theorem average_neighbor_value dm G nodes weighted :
  dm = G_degree ∨ is_directed G = true →
  ∃ r, neighbor_variant dm G nodes weighted = Ok r
       ∧ ∀ n, n ∈ nbunch_iter G nodes →
              r !! n = Some (if decide (0 < degree dm G n weighted)%Qc
                             then (nbr_total G dm n weighted
                                   / degree dm G n weighted)%Qc
                             else nbr_total G dm n weighted)
              ∧ (getitem G n = ∅ → r !! n = Some 0%Qc).
Proof.
  intros Hdm. rewrite neighbor_variant_directed by done.
  destruct (_average_nbr_deg_ok G dm nodes weighted) as (r & Hr & Hlook).
  exists r. split; [done|]. intros n Hn.
  rewrite Hlook, decide_True by done. split; [done|].
  intros HG. by rewrite avg_nbr_value_empty.
Qed.

Lemma average_neighbor_value_witness :
  ∃ r, neighbor_variant G_in_degree dipath4 None false = Ok r
       ∧ ∀ n, n ∈ nbunch_iter dipath4 None →
              r !! n = Some (if decide (0 < degree G_in_degree dipath4 n false)%Qc
                             then (nbr_total dipath4 G_in_degree n false
                                   / degree G_in_degree dipath4 n false)%Qc
                             else nbr_total dipath4 G_in_degree n false)
              ∧ (getitem dipath4 n = ∅ → r !! n = Some 0%Qc).
Proof.
  apply (average_neighbor_value G_in_degree dipath4 None false).
  right. reflexivity.
Defined.

(** C1, as the code has it: under the plain accessor and under the
    out-degree accessor a selected node whose degree (its count of edges) is
    zero is given 0.0, and so is, under any accessor, a selected node
    without successors. *)
Theorem zero_degree_average_zero dm G nodes weighted n :
  dm = G_degree ∨ is_directed G = true →
  n ∈ nbunch_iter G nodes →
  (dm ≠ G_in_degree ∧ degree_count dm G n = 0) ∨ getitem G n = ∅ →
  ∃ r, neighbor_variant dm G nodes weighted = Ok r ∧ r !! n = Some 0%Qc.
Proof.
  intros Hdm Hn Hz.
  assert (getitem G n = ∅) as HG.
  { destruct Hz as [[Hne Hz]|HG]; [|done].
    by apply (degree_count_zero_getitem G dm). }
  rewrite neighbor_variant_directed by done.
  destruct (_average_nbr_deg_ok G dm nodes weighted) as (r & Hr & Hlook).
  exists r. split; [done|].
  by rewrite Hlook, decide_True, avg_nbr_value_empty.
Qed.

Lemma zero_degree_average_zero_witness :
  ∃ r, neighbor_variant G_out_degree dipath4 None true = Ok r
       ∧ r !! 3 = Some 0%Qc.
Proof.
  apply (zero_degree_average_zero G_out_degree dipath4 None true 3).
  - right. reflexivity.
  - in_list.
  - left. split; [discriminate|reflexivity].
Defined.

(** C1 as stated fails for the in-degree accessor: in the directed path
    0 -> 1 -> 2 -> 3 node 0 has in-degree zero, its successor 1 has in-degree
    1, and [average_neighbor_in_degree] gives node 0 the value 1.0. *)
Lemma zero_in_degree_average_nonzero :
  ∃ r, average_neighbor_in_degree dipath4 None false = Ok r
       ∧ 0 ∈ nbunch_iter dipath4 None
       ∧ degree G_in_degree dipath4 0 false = 0%Qc
       ∧ r !! 0 = Some 1%Qc
       ∧ r !! 0 ≠ Some 0%Qc.
Proof.
  destruct (_average_nbr_deg_ok dipath4 G_in_degree None false)
    as (r & Hr & Hlook).
  exists r. split; [exact Hr|]. split; [in_list|].
  split; [by apply Qc_is_canon|].
  assert (0 ∈ nbunch_iter dipath4 None) as Hin by in_list.
  rewrite Hlook. rewrite decide_True by done.
  split.
  - f_equal. by apply Qc_is_canon.
  - intros [= H].
Qed.

(** C2, as the code has it: on the path 0-1-2-3 without weights,
    [average_neighbor_degree] with [weighted=False] over all nodes returns
    {0: 2.0, 1: 1.5, 2: 1.5, 3: 2.0}: the single neighbor of an end node has
    degree 2. *)
Theorem path4_average_neighbor_degree :
  average_neighbor_degree path4 None false
  = Ok (list_to_map [(0, Qc_of_Z 2); (1, Q2Qc (Qmake 3 2));
                     (2, Q2Qc (Qmake 3 2)); (3, Qc_of_Z 2)]).
Proof. apply values_of_inj. vm_compute. reflexivity. Qed.

(** C2 as stated fails: the value at node 0 is 2.0, and the mapping returned
    is not {0: 1.0, 1: 1.5, 2: 1.5, 3: 1.0}. *)
Lemma path4_average_neighbor_degree_not_one :
  average_neighbor_degree path4 None false
  ≠ Ok (list_to_map [(0, Qc_of_Z 1); (1, Q2Qc (Qmake 3 2));
                     (2, Q2Qc (Qmake 3 2)); (3, Qc_of_Z 1)]).
Proof.
  intros H. apply (f_equal values_of) in H. vm_compute in H. discriminate H.
Qed.

(** C5: on the path 0-1-2-3 with weight 5 on (0,1), weight 3 on (2,3) and no
    weight on (1,2), [average_neighbor_degree] with [weighted=True] returns
    {0: 2, 1: 7/6, 2: 5/4, 3: 2}, which as binary64 values are
    {0: 2.0, 1: 1.1666666666666667, 2: 1.25, 3: 2.0}. *)
Theorem path4_weighted_average_neighbor_degree :
  average_neighbor_degree path4_w53 None true
  = Ok (list_to_map [(0, Qc_of_Z 2); (1, Q2Qc (Qmake 7 6));
                     (2, Q2Qc (Qmake 5 4)); (3, Qc_of_Z 2)])
  ∧ floats_of (average_neighbor_degree path4_w53 None true)
    = Ok (list_to_map [(0, 2.0%float); (1, 1.1666666666666667%float);
                       (2, 1.25%float); (3, 2.0%float)]).
Proof.
  split.
  - apply values_of_inj. vm_compute. reflexivity.
  - vm_compute. reflexivity.
Qed.

(** ** Sums *)

Lemma Qc_sum_perm (l l' : list Qc) : l ≡ₚ l' → Qc_sum l = Qc_sum l'.
Proof.
  induction 1 as [|x l l' _ IH|x y l|l l' l'' _ IH1 _ IH2]; simpl.
  - done.
  - by rewrite IH.
  - by rewrite !Qcplus_assoc, (Qcplus_comm y x).
  - by rewrite IH1.
Qed.


Lemma dd_add_lookup (d : gmap nat Qc) k x j :
  default 0%Qc (dd_add d k x !! j)
  = if decide (j = k) then (default 0%Qc (d !! k) + x)%Qc
    else default 0%Qc (d !! j).
Proof.
  unfold dd_add. case_decide as Hj.
  - subst. by rewrite lookup_insert_eq.
  - by rewrite lookup_insert_ne.
Qed.

Lemma dd_add_dom (d : gmap nat Qc) k x : dom (dd_add d k x) = {[k]} ∪ dom d.
Proof. unfold dd_add. apply dom_insert_L. Qed.

(** ** Degree dictionaries *)

Lemma list_to_map_graph_lookup (f : nat → nat) (l : list nat) n :
  (list_to_map ((λ n, (n, f n)) <$> l) : gmap nat nat) !! n
  = if decide (n ∈ l) then Some (f n) else None.
Proof.
  induction l as [|a l IH].
  - by rewrite decide_False by apply not_elem_of_nil.
  - rewrite fmap_cons, list_to_map_cons.
    destruct (decide (n = a)) as [->|Hne].
    + by rewrite lookup_insert_eq, decide_True by (by left).
    + rewrite lookup_insert_ne by done.
      rewrite IH. destruct (decide (n ∈ l)) as [Hl|Hl].
      * by rewrite decide_True by (by right).
      * rewrite decide_False; [done|]. rewrite elem_of_cons. tauto.
Qed.

Lemma degree_dict_lookup dm G l n :
  degree_dict dm G l !! n
  = if decide (n ∈ nbunch_iter G (Some l))
    then Some (degree_count dm G n) else None.
Proof. unfold degree_dict. apply list_to_map_graph_lookup. Qed.

(** The items of a degree dictionary are the selected nodes, each once, with
    their degrees. *)
Lemma degree_dict_items dm G l :
  map_to_list (degree_dict dm G l)
  ≡ₚ (λ n, (n, degree_count dm G n))
       <$> elements (list_to_set (nbunch_iter G (Some l)) : gset nat).
Proof.
  apply NoDup_Permutation.
  - apply NoDup_map_to_list.
  - apply NoDup_fmap_2; [|apply NoDup_elements].
    by intros x y [= ->].
  - intros [n k]. rewrite elem_of_map_to_list, degree_dict_lookup.
    rewrite list_elem_of_fmap. split.
    + case_decide as Hn; [|done]. intros [= <-]. exists n. split; [done|].
      by apply elem_of_elements, elem_of_list_to_set.
    + intros (m & [= -> ->] & Hm).
      apply elem_of_elements, elem_of_list_to_set in Hm.
      by rewrite decide_True.
Qed.

Lemma nbunch_iter_idemp G nodes :
  nbunch_iter G (Some (nbunch_iter G nodes)) = nbunch_iter G nodes.
Proof.
  assert (∀ l : list nat, Forall (λ n, is_Some (adj G !! n)) l →
            filter (λ n, is_Some (adj G !! n)) l = l) as Hall.
  { induction 1 as [|x l Hx _ IH]; [done|].
    rewrite filter_cons, decide_True by done. by rewrite IH. }
  simpl. apply Hall, Forall_forall. intros n Hn.
  destruct nodes as [l|]; simpl in Hn.
  - by apply list_elem_of_filter in Hn as [? _].
  - unfold nodes_of in Hn. apply list_elem_of_fmap in Hn as ([m x] & -> & Hx).
    apply elem_of_map_to_list in Hx. by eexists.
Qed.

(** The items the first loop of [_avg_deg_conn] runs over. *)
Lemma conn_acc_unfold G dm nodes weighted :
  conn_acc G dm nodes weighted
  = foldl (conn_step G dm weighted) (∅, ∅)
      (map_to_list (degree_dict dm G (nbunch_iter G nodes))).
Proof. unfold conn_acc, conn_loop. by destruct nodes. Qed.

Lemma conn_items G dm nodes :
  map_to_list (degree_dict dm G (nbunch_iter G nodes))
  ≡ₚ (λ n, (n, degree_count dm G n)) <$> selected G nodes.
Proof.
  rewrite degree_dict_items. unfold selected. by rewrite nbunch_iter_idemp.
Qed.

(** ** [_avg_deg_conn]: the accumulating loop *)

Lemma conn_step_eq G dm weighted dsum dnorm n k :
  conn_step G dm weighted (dsum, dnorm) (n, k)
  = (dd_add dsum k (nbr_total G dm n weighted),
     dd_add dnorm k (norm_term G dm weighted (n, k))).
Proof. unfold conn_step, norm_term. by destruct weighted. Qed.


Lemma conn_fold_dom G dm weighted items acc :
  dom (foldl (conn_step G dm weighted) acc items).1
  = list_to_set items.*2 ∪ dom acc.1.
Proof.
  revert acc. induction items as [|[n k] items IH]; intros [dsum dnorm].
  - simpl. by rewrite (left_id_L ∅ (∪)).
  - cbn [foldl]. rewrite IH, conn_step_eq. cbn [fst snd].
    rewrite dd_add_dom, fmap_cons, list_to_set_cons. cbn [snd].
    rewrite !(assoc_L (∪)). f_equal. apply (comm_L (∪)).
Qed.

(** ** [_avg_deg_conn]: the normalizing loop *)

Lemma conn_norm_step_ok dnorm (dc : gmap nat Qc) k avg :
  ¬ zero_norm dnorm (k, avg) →
  conn_norm_step dnorm dc (k, avg) = Ok (<[k := conn_value dnorm k avg]> dc).
Proof.
  intros Hz. unfold conn_norm_step, conn_value.
  case_decide as Hpos; [|done].
  rewrite lookup_insert_eq. simpl. unfold truediv.
  rewrite decide_False by (intros Hd; apply Hz; by split).
  cbn. by rewrite insert_insert_eq.
Qed.

Lemma conn_norm_step_raise dnorm (dc : gmap nat Qc) k avg :
  zero_norm dnorm (k, avg) →
  conn_norm_step dnorm dc (k, avg) = Raise ZeroDivisionError.
Proof.
  intros [Hpos Hz]. simpl in *. unfold conn_norm_step.
  rewrite decide_True by done. unfold truediv.
  by rewrite decide_True by done.
Qed.

Lemma for_each_conn_norm dnorm (dc : gmap nat Qc) l :
  for_each (conn_norm_step dnorm) dc l
  = if decide (Exists (zero_norm dnorm) l) then Raise ZeroDivisionError
    else Ok (foldl (λ m '(k, avg), <[k := conn_value dnorm k avg]> m) dc l).
Proof.
  revert dc. induction l as [|[k avg] l IH]; intros dc.
  - by rewrite decide_False by (by intros ?%Exists_nil).
  - cbn [for_each foldl].
    destruct (decide (zero_norm dnorm (k, avg))) as [Hz|Hz].
    + rewrite conn_norm_step_raise by done.
      by rewrite decide_True by (by left).
    + rewrite conn_norm_step_ok by done. cbn. rewrite IH.
      destruct (decide (Exists (zero_norm dnorm) l)) as [He|He].
      * by rewrite decide_True by (by right).
      * rewrite decide_False; [done|]. rewrite Exists_cons. tauto.
Qed.

Lemma foldl_insert_items_lookup (g : nat → Qc → Qc) (acc : gmap nat Qc)
    (l : list (nat * Qc)) k :
  NoDup l.*1 →
  foldl (λ m '(k, avg), <[k := g k avg]> m) acc l !! k
  = match (list_to_map l : gmap nat Qc) !! k with
    | Some avg => Some (g k avg)
    | None => acc !! k
    end.
Proof.
  revert acc. induction l as [|[a avg] l IH]; intros acc Hnd.
  - done.
  - rewrite fmap_cons in Hnd. apply NoDup_cons in Hnd as [Ha Hnd].
    cbn [foldl]. rewrite IH, list_to_map_cons by done.
    destruct (decide (k = a)) as [->|Hne].
    + rewrite lookup_insert_eq.
      by rewrite (not_elem_of_list_to_map_1 l a), lookup_insert_eq by done.
    + by rewrite !(lookup_insert_ne _ a k) by done.
Qed.

(** The outcome of [_avg_deg_conn] from the accumulators of its first
    loop. *)
Lemma _avg_deg_conn_outcome G dm nodes weighted :
  _avg_deg_conn G dm nodes weighted
  = if decide (Exists (zero_norm (conn_acc G dm nodes weighted).2)
                 (map_to_list (conn_acc G dm nodes weighted).1))
    then Raise ZeroDivisionError
    else Ok (map_imap
               (λ k avg,
                  Some (conn_value (conn_acc G dm nodes weighted).2 k avg))
               (conn_acc G dm nodes weighted).1).
Proof.
  unfold _avg_deg_conn. destruct (conn_acc G dm nodes weighted) as [dsum dnorm].
  rewrite for_each_conn_norm. simpl. case_decide; [done|]. f_equal.
  apply map_eq. intros k.
  rewrite foldl_insert_items_lookup by apply NoDup_fst_map_to_list.
  rewrite list_to_map_to_list, map_lookup_imap, lookup_empty.
  by destruct (dsum !! k).
Qed.

Lemma connectivity_variant_directed dm G nodes weighted :
  dm = G_degree ∨ is_directed G = true →
  connectivity_variant dm G nodes weighted = _avg_deg_conn G dm nodes weighted.
Proof.
  intros [->|Hd]; [done|]. destruct dm; simpl; [done| |];
    unfold average_in_degree_connectivity, average_out_degree_connectivity;
    by rewrite Hd.
Qed.

(** Without weights, and with an accessor that counts the edges to the
    neighbors, a class with a positive sum has a positive norm. *)
Lemma conn_fold_inv G dm items acc :
  dm ≠ G_in_degree →
  (∀ n k, (n, k) ∈ items → k = degree_count dm G n) →
  conn_inv acc → conn_inv (foldl (conn_step G dm false) acc items).
Proof.
  intros Hdm. revert acc.
  induction items as [|[n k] items IH]; intros [dsum dnorm] Hk Hinv; [done|].
  cbn [foldl]. apply IH; [intros; apply Hk; by right|].
  rewrite conn_step_eq. intros j. cbn [fst snd norm_term].
  rewrite !dd_add_lookup. destruct (Hinv j) as [Hnn Hpos].
  case_decide as Hj; [subst j|done]. simpl in Hnn, Hpos.
  split; [apply Qcplus_nonneg_nonneg; [done|apply Qc_of_nat_nonneg]|].
  destruct (decide (k = 0)) as [->|Hk0].
  - rewrite nbr_total_empty, Qc_of_nat_0, !Qcplus_0_r; [done|].
    apply (degree_count_zero_getitem G dm); [done|].
    symmetry. apply Hk. by left.
  - intros _. apply Qcplus_nonneg_pos; [done|]. apply Qc_of_nat_pos. lia.
Qed.

Lemma conn_acc_inv G dm nodes :
  dm ≠ G_in_degree → conn_inv (conn_acc G dm nodes false).
Proof.
  intros Hdm. rewrite conn_acc_unfold. apply conn_fold_inv; [done| |].
  - intros n k Hnk%elem_of_map_to_list. rewrite degree_dict_lookup in Hnk.
    case_decide; [|done]. by injection Hnk.
  - intros k. simpl. by rewrite lookup_empty.
Qed.

Lemma conn_inv_no_zero_norm (acc : gmap nat Qc * gmap nat Qc) :
  conn_inv acc → ¬ Exists (zero_norm acc.2) (map_to_list acc.1).
Proof.
  intros Hinv ([k avg] & Hin%elem_of_map_to_list & Hpos & Hz)%Exists_exists.
  simpl in *. destruct (Hinv k) as [_ Hk]. rewrite Hin in Hk.
  apply Hk in Hpos. rewrite Hz in Hpos. by apply Qclt_not_eq in Hpos.
Qed.

(** The keys of [dsum] are the degrees of the selected nodes. *)
Lemma conn_acc_dom G dm nodes weighted :
  dom (conn_acc G dm nodes weighted).1
  = list_to_set (degree_count dm G <$> nbunch_iter G nodes).
Proof.
  rewrite conn_acc_unfold, conn_fold_dom. simpl.
  rewrite dom_empty_L, (right_id_L ∅ (∪)).
  apply set_eq. intros k. rewrite !elem_of_list_to_set, !list_elem_of_fmap.
  split.
  - intros ([n k'] & -> & Hnk%elem_of_map_to_list).
    rewrite degree_dict_lookup, nbunch_iter_idemp in Hnk.
    case_decide; [|done]. injection Hnk as <-. by exists n.
  - intros (n & -> & Hn). exists (n, degree_count dm G n). split; [done|].
    apply elem_of_map_to_list.
    by rewrite degree_dict_lookup, nbunch_iter_idemp, decide_True.
Qed.

(** ** Degree connectivity *)




(** C4: the mapping [average_degree_connectivity] returns has as its keys
    exactly the degrees of the selected nodes, and without weights the call
    always returns one; on the path 0-1-2-3 without weights the result is
    {1: 2.0, 2: 1.5}. *)
Theorem connectivity_keys G nodes weighted :
  match average_degree_connectivity G nodes weighted with
  | Ok dc =>
      dom dc = list_to_set (degree_count G_degree G <$> nbunch_iter G nodes)
  | Raise e => weighted = true
  end
  ∧ average_degree_connectivity path4 None false
    = Ok (list_to_map [(1, Qc_of_Z 2); (2, Q2Qc (Qmake 3 2))]).
Proof.
  split; [|apply values_of_inj; vm_compute; reflexivity].
  unfold average_degree_connectivity. rewrite _avg_deg_conn_outcome.
  case_decide as Hz.
  - destruct weighted; [done|]. exfalso. revert Hz.
    by apply conn_inv_no_zero_norm, conn_acc_inv.
  - rewrite <-conn_acc_dom with (weighted := weighted).
    apply dom_imap_L. intros k. rewrite elem_of_dom. split.
    + intros [avg Havg]. by exists avg.
    + intros (avg & Havg & _). by exists avg.
Qed.

(** C6, as the code has it: when the call returns, the value under every
    key [k] of [dsum] is [dsum[k]] itself when [dsum[k] <= 0] and
    [dsum[k] / dnorm[k]] when [dsum[k] > 0], and there are no other keys;
    the call returns unless some class has a positive sum over a zero
    norm. *)
Theorem connectivity_value dm G nodes weighted :
  dm = G_degree ∨ is_directed G = true →
  match connectivity_variant dm G nodes weighted with
  | Ok dc =>
      ∀ k, dc !! k
           = (λ avg, if decide (0 < avg)%Qc
                     then (avg / default 0%Qc
                                   ((conn_acc G dm nodes weighted).2 !! k))%Qc
                     else avg)
               <$> (conn_acc G dm nodes weighted).1 !! k
  | Raise e =>
      ∃ k avg, (conn_acc G dm nodes weighted).1 !! k = Some avg
               ∧ (0 < avg)%Qc
               ∧ default 0%Qc ((conn_acc G dm nodes weighted).2 !! k) = 0%Qc
  end.
Proof.
  intros Hdm. rewrite connectivity_variant_directed by done.
  rewrite _avg_deg_conn_outcome. case_decide as Hz.
  - apply Exists_exists in Hz as ([k avg] & Hin%elem_of_map_to_list & Hp & H0).
    by exists k, avg.
  - intros k. rewrite map_lookup_imap.
    by destruct ((conn_acc G dm nodes weighted).1 !! k).
Qed.

Lemma connectivity_value_witness :
  match connectivity_variant G_degree path4_w3 None true with
  | Ok dc =>
      ∀ k, dc !! k
           = (λ avg, if decide (0 < avg)%Qc
                     then (avg / default 0%Qc
                                   ((conn_acc path4_w3 G_degree None true).2
                                      !! k))%Qc
                     else avg)
               <$> (conn_acc path4_w3 G_degree None true).1 !! k
  | Raise e =>
      ∃ k avg, (conn_acc path4_w3 G_degree None true).1 !! k = Some avg
               ∧ (0 < avg)%Qc
               ∧ default 0%Qc ((conn_acc path4_w3 G_degree None true).2 !! k)
                 = 0%Qc
  end.
Proof.
  apply (connectivity_value G_degree path4_w3 None true). left. reflexivity.
Defined.

(** C6 as stated fails where a sum is negative: on the single edge 0-1 of
    weight -1 both nodes have degree 1, [dsum[1]] and [dnorm[1]] are -2, and
    the weighted connectivity returns -2 under key 1, not -2 / -2. *)
Lemma negative_sum_not_divided :
  ∃ dc avg, average_degree_connectivity edge_neg None true = Ok dc
            ∧ (conn_acc edge_neg G_degree None true).1 !! 1 = Some avg
            ∧ avg ≠ 0%Qc
            ∧ dc !! 1 = Some avg
            ∧ dc !! 1
              ≠ Some (conn_value_zero_test
                        (conn_acc edge_neg G_degree None true).2 1 avg).
Proof.
  exists {[1 := Qc_of_Z (-2)]}, (Qc_of_Z (-2)).
  split; [apply values_of_inj; vm_compute; reflexivity|].
  split; [apply (inj (fmap this)); vm_compute; reflexivity|].
  split; [by intros [=]|].
  split; [done|].
  rewrite lookup_singleton_eq. intros [= H].
Qed.

(** ** The neighbors that are visited *)

Lemma closed_getitem G n nbr :
  closed G → is_Some (getitem G n !! nbr) → is_Some (adj G !! nbr).
Proof.
  intros Hc Hnbr. unfold getitem in Hnbr.
  destruct (adj G !! n) as [nbrs|] eqn:Hn; simpl in Hnbr.
  - apply elem_of_dom. apply (map_Forall_lookup_1 _ _ _ _ Hc Hn).
    by apply elem_of_dom.
  - rewrite lookup_empty in Hnbr. by destruct Hnbr.
Qed.

(** The dictionary [nbrdeg] holds the successors of [n], whatever the
    accessor; the accessor decides the degrees only. *)
Lemma nbrdeg_of_lookup G dm n nbr :
  closed G →
  nbrdeg_of G dm n !! nbr
  = (λ _, degree_count dm G nbr) <$> getitem G n !! nbr.
Proof.
  intros Hc. unfold nbrdeg_of. rewrite degree_dict_lookup. simpl.
  destruct (getitem G n !! nbr) as [attrs|] eqn:Hnbr; simpl.
  - rewrite decide_True; [done|]. apply list_elem_of_filter. split.
    + apply (closed_getitem G n); [done|]. by rewrite Hnbr.
    + apply list_elem_of_fmap. exists (nbr, attrs). split; [done|].
      by apply elem_of_map_to_list.
  - rewrite decide_False; [done|].
    intros [_ ([m a] & -> & Hm)%list_elem_of_fmap]%list_elem_of_filter.
    apply elem_of_map_to_list in Hm. simpl in Hnbr. congruence.
Qed.

Lemma nbrdeg_of_items G dm n :
  closed G →
  map_to_list (nbrdeg_of G dm n)
  ≡ₚ (λ na : nat * option Qc, (na.1, degree_count dm G na.1))
       <$> map_to_list (getitem G n).
Proof.
  intros Hc. apply NoDup_Permutation.
  - apply NoDup_map_to_list.
  - apply (NoDup_fmap_1 fst). rewrite <-list_fmap_compose.
    apply NoDup_fst_map_to_list.
  - intros [nbr d]. rewrite elem_of_map_to_list, nbrdeg_of_lookup by done.
    rewrite list_elem_of_fmap. split.
    + destruct (getitem G n !! nbr) as [attrs|] eqn:Hnbr; [|done].
      intros [= <-]. exists (nbr, attrs). split; [done|].
      by apply elem_of_map_to_list.
    + intros ([m a] & [= -> ->] & Hm%elem_of_map_to_list). simpl.
      by rewrite Hm.
Qed.

Lemma nbr_total_succ_total G dm n weighted :
  closed G → nbr_total G dm n weighted = succ_total G dm n weighted.
Proof.
  intros Hc. unfold nbr_total, succ_total. destruct weighted.
  - rewrite (Qc_sum_perm _ _
               (fmap_Permutation _ _ _ (nbrdeg_of_items G dm n Hc))).
    rewrite <-list_fmap_compose. f_equal. apply Forall_fmap_ext, Forall_forall.
    intros [nbr attrs] Hin%elem_of_map_to_list. simpl.
    unfold edge_weight. by rewrite Hin.
  - f_equal. rewrite (nbrdeg_of_items G dm n Hc).
    by rewrite <-!list_fmap_compose.
Qed.

(** C10: in a graph whose recorded neighbors are nodes, a directed one in
    particular, every variant sums over the successors [G[n]] of [n]: the sum
    both loops take is the one over [G[n]], and the accessor enters only
    through the degree of each successor and the degree of [n] itself.  So
    it is for the per-node averages of the three variants and for what the
    first loop of the connectivity adds to [dsum] and [dnorm]. *)
Theorem successors_are_traversed G dm nodes weighted :
  closed G →
  dm = G_degree ∨ is_directed G = true →
  (∀ n nbr, nbrdeg_of G dm n !! nbr
            = (λ _, degree_count dm G nbr) <$> getitem G n !! nbr)
  ∧ (∃ r, neighbor_variant dm G nodes weighted = Ok r
          ∧ ∀ n, n ∈ nbunch_iter G nodes →
                 r !! n = Some (if decide (0 < degree dm G n weighted)%Qc
                                then (succ_total G dm n weighted
                                      / degree dm G n weighted)%Qc
                                else succ_total G dm n weighted))
  ∧ (∀ dsum dnorm n,
       conn_step G dm weighted (dsum, dnorm) (n, degree_count dm G n)
       = (dd_add dsum (degree_count dm G n) (succ_total G dm n weighted),
          dd_add dnorm (degree_count dm G n) (degree dm G n weighted))).
Proof.
  intros Hc Hdm. split; [intros; by apply nbrdeg_of_lookup|]. split.
  - rewrite neighbor_variant_directed by done.
    destruct (_average_nbr_deg_ok G dm nodes weighted) as (r & Hr & Hlook).
    exists r. split; [done|]. intros n Hn.
    rewrite Hlook, decide_True by done. unfold avg_nbr_value.
    by rewrite nbr_total_succ_total.
  - intros dsum dnorm n. rewrite conn_step_eq, nbr_total_succ_total by done.
    f_equal. f_equal. unfold norm_term, degree. by destruct weighted.
Qed.

Lemma successors_are_traversed_witness :
  (∀ n nbr, nbrdeg_of dipath4 G_in_degree n !! nbr
            = (λ _, degree_count G_in_degree dipath4 nbr)
                <$> getitem dipath4 n !! nbr)
  ∧ (∃ r, neighbor_variant G_in_degree dipath4 None true = Ok r
          ∧ ∀ n, n ∈ nbunch_iter dipath4 None →
                 r !! n
                 = Some (if decide (0 < degree G_in_degree dipath4 n true)%Qc
                         then (succ_total dipath4 G_in_degree n true
                               / degree G_in_degree dipath4 n true)%Qc
                         else succ_total dipath4 G_in_degree n true))
  ∧ (∀ dsum dnorm n,
       conn_step dipath4 G_in_degree true (dsum, dnorm)
         (n, degree_count G_in_degree dipath4 n)
       = (dd_add dsum (degree_count G_in_degree dipath4 n)
            (succ_total dipath4 G_in_degree n true),
          dd_add dnorm (degree_count G_in_degree dipath4 n)
            (degree G_in_degree dipath4 n true))).
Proof.
  apply (successors_are_traversed dipath4 G_in_degree None true).
  - apply (bool_decide_unpack _). vm_compute. exact I.
  - right. reflexivity.
Defined.

(** ** The directedness guard *)

(** C3: on an undirected graph each of the four in/out entry points raises
    the error of the directedness guard, whatever the node selection and the
    [weighted] flag; the outcome is the exception alone, no mapping, and the
    dictionaries are as they were: nothing has been accumulated. *)
Theorem undirected_in_out_raise G nodes weighted h :
  is_directed G = false →
  (average_neighbor_in_degree G nodes weighted = Raise not_defined
   ∧ average_neighbor_out_degree G nodes weighted = Raise not_defined
   ∧ average_in_degree_connectivity G nodes weighted = Raise not_defined
   ∧ average_out_degree_connectivity G nodes weighted = Raise not_defined)
  ∧ (run Average_neighbor_in_degree G nodes weighted h
     = (Raise not_defined, h)
     ∧ run Average_neighbor_out_degree G nodes weighted h
       = (Raise not_defined, h)
     ∧ run Average_in_degree_connectivity G nodes weighted h
       = (Raise not_defined, h)
     ∧ run Average_out_degree_connectivity G nodes weighted h
       = (Raise not_defined, h)).
Proof.
  intros Hu.
  unfold average_neighbor_in_degree, average_neighbor_out_degree,
    average_in_degree_connectivity, average_out_degree_connectivity, run.
  by rewrite Hu.
Qed.

Lemma undirected_in_out_raise_witness :
  (average_neighbor_in_degree path4 (Some [0; 1]) true = Raise not_defined
   ∧ average_neighbor_out_degree path4 (Some [0; 1]) true = Raise not_defined
   ∧ average_in_degree_connectivity path4 (Some [0; 1]) true
     = Raise not_defined
   ∧ average_out_degree_connectivity path4 (Some [0; 1]) true
     = Raise not_defined)
  ∧ (run Average_neighbor_in_degree path4 (Some [0; 1]) true
       (mkDicts ∅ ∅ ∅ ∅)
     = (Raise not_defined, mkDicts ∅ ∅ ∅ ∅)
     ∧ run Average_neighbor_out_degree path4 (Some [0; 1]) true
         (mkDicts ∅ ∅ ∅ ∅)
       = (Raise not_defined, mkDicts ∅ ∅ ∅ ∅)
     ∧ run Average_in_degree_connectivity path4 (Some [0; 1]) true
         (mkDicts ∅ ∅ ∅ ∅)
       = (Raise not_defined, mkDicts ∅ ∅ ∅ ∅)
     ∧ run Average_out_degree_connectivity path4 (Some [0; 1]) true
         (mkDicts ∅ ∅ ∅ ∅)
       = (Raise not_defined, mkDicts ∅ ∅ ∅ ∅)).
Proof.
  apply (undirected_in_out_raise path4 (Some [0; 1]) true (mkDicts ∅ ∅ ∅ ∅)).
  reflexivity.
Defined.

(** * Further properties of the code *)

(** ** The node selection of [_average_nbr_deg] *)

Ltac concrete := apply (bool_decide_unpack _); vm_compute; exact I.

(** X1: the mapping [_average_nbr_deg] returns has a key for every node of the
    selection that is a node of the graph, and for nothing else; without a
    selection its keys are the nodes of the graph. *)
Theorem average_nbr_deg_keys G dm nodes weighted :
  ∃ r, _average_nbr_deg G dm nodes weighted = Ok r
       ∧ match nodes with
         | None => dom r = dom (adj G)
         | Some l => ∀ n, n ∈ dom r ↔ n ∈ l ∧ is_Some (adj G !! n)
         end.
Proof.
  destruct (_average_nbr_deg_ok G dm nodes weighted) as (r & Hr & Hlook).
  exists r. split; [done|].
  assert (∀ n, n ∈ dom r ↔ n ∈ nbunch_iter G nodes) as Hdom.
  { intros n. rewrite elem_of_dom, Hlook. case_decide as Hn.
    - split; [done|]. by eexists.
    - split; [by intros [? ?]|done]. }
  destruct nodes as [l|].
  - intros n. rewrite Hdom. simpl. rewrite list_elem_of_filter. tauto.
  - apply set_eq. intros n. rewrite Hdom, elem_of_dom. simpl.
    unfold nodes_of. rewrite list_elem_of_fmap. split.
    + intros ([m x] & -> & Hx%elem_of_map_to_list). by eexists.
    + intros [x Hx]. exists (n, x). split; [done|].
      by apply elem_of_map_to_list.
Qed.

(** X2: only the set of selected nodes of the graph matters to
    [_average_nbr_deg]: two selections with the same nodes of the graph
    among their members, in whatever order and however often repeated, give
    the same mapping, and so does no selection and the list of all the
    nodes. *)
Theorem average_nbr_deg_selection_set G dm l l' weighted :
  (∀ n, is_Some (adj G !! n) → n ∈ l ↔ n ∈ l') →
  _average_nbr_deg G dm (Some l) weighted
  = _average_nbr_deg G dm (Some l') weighted
  ∧ _average_nbr_deg G dm (Some (nodes_of G)) weighted
    = _average_nbr_deg G dm None weighted.
Proof.
  intros Hll.
  assert (∀ s s', (∀ n, n ∈ nbunch_iter G s ↔ n ∈ nbunch_iter G s') →
            _average_nbr_deg G dm s weighted
            = _average_nbr_deg G dm s' weighted) as Hset.
  { intros s s' Hss.
    destruct (_average_nbr_deg_ok G dm s weighted) as (r & -> & Hlook).
    destruct (_average_nbr_deg_ok G dm s' weighted) as (r' & -> & Hlook').
    f_equal. apply map_eq. intros n. rewrite Hlook, Hlook'.
    apply decide_ext, Hss. }
  split; apply Hset; intros n.
  - simpl. rewrite !list_elem_of_filter. specialize (Hll n). tauto.
  - change (nbunch_iter G (Some (nodes_of G)))
      with (nbunch_iter G (Some (nbunch_iter G None))).
    by rewrite nbunch_iter_idemp.
Qed.

Lemma same_nodes_3117_13 n :
  is_Some (adj path4 !! n) → n ∈ [3; 1; 1; 7] ↔ n ∈ [1; 3].
Proof.
  intros Hn. rewrite !list_elem_of_In. simpl.
  split; [|tauto]. intros [<-|[<-|[<-|[<-|[]]]]]; auto.
  exfalso. vm_compute in Hn. by destruct Hn.
Defined.

Lemma average_nbr_deg_selection_set_witness :
  _average_nbr_deg path4 G_degree (Some [3; 1; 1; 7]) true
  = _average_nbr_deg path4 G_degree (Some [1; 3]) true
  ∧ _average_nbr_deg path4 G_degree (Some (nodes_of path4)) true
    = _average_nbr_deg path4 G_degree None true.
Proof.
  apply (average_nbr_deg_selection_set path4 G_degree [3; 1; 1; 7] [1; 3] true).
  exact same_nodes_3117_13.
Defined.

Lemma elem_of_nodes_of G n : n ∈ nodes_of G ↔ is_Some (adj G !! n).
Proof.
  unfold nodes_of. rewrite list_elem_of_fmap. split.
  - intros ([m x] & -> & Hx%elem_of_map_to_list). by eexists.
  - intros [x Hx]. exists (n, x). split; [done|].
    by apply elem_of_map_to_list.
Qed.

Lemma elem_of_nbunch_iter G nodes n :
  n ∈ nbunch_iter G nodes
  ↔ is_Some (adj G !! n)
    ∧ match nodes with None => True | Some l => n ∈ l end.
Proof.
  destruct nodes as [l|]; simpl.
  - rewrite list_elem_of_filter. tauto.
  - rewrite elem_of_nodes_of. tauto.
Qed.

(** X3: the mapping [_average_nbr_deg] returns for a selection is the part of
    the mapping it returns for all the nodes: the value of a node does not
    depend on what else is selected. *)
Theorem average_nbr_deg_restricts G dm nodes weighted :
  ∃ r r_all, _average_nbr_deg G dm nodes weighted = Ok r
             ∧ _average_nbr_deg G dm None weighted = Ok r_all
             ∧ r ⊆ r_all.
Proof.
  destruct (_average_nbr_deg_ok G dm nodes weighted) as (r & Hr & Hlook).
  destruct (_average_nbr_deg_ok G dm None weighted) as (r' & Hr' & Hlook').
  exists r, r'. split; [done|]. split; [done|].
  apply map_subseteq_spec. intros n x. rewrite Hlook, Hlook'.
  case_decide as Hn; [|done]. intros <-.
  rewrite decide_True; [done|].
  apply elem_of_nbunch_iter in Hn as [Hn _]. by apply elem_of_nbunch_iter.
Qed.

(** ** The node selection of [_avg_deg_conn] *)

Lemma degree_dict_selection_set G dm s s' :
  (∀ n, n ∈ nbunch_iter G s ↔ n ∈ nbunch_iter G s') →
  degree_dict dm G (nbunch_iter G s) = degree_dict dm G (nbunch_iter G s').
Proof.
  intros Hss. apply map_eq. intros n.
  rewrite !degree_dict_lookup, !nbunch_iter_idemp. apply decide_ext, Hss.
Qed.

Lemma _avg_deg_conn_selection_set G dm s s' weighted :
  (∀ n, n ∈ nbunch_iter G s ↔ n ∈ nbunch_iter G s') →
  _avg_deg_conn G dm s weighted = _avg_deg_conn G dm s' weighted.
Proof.
  intros Hss. rewrite !_avg_deg_conn_outcome, !conn_acc_unfold.
  by rewrite (degree_dict_selection_set G dm s s').
Qed.

(** X4: without weights only the set of selected nodes of the graph matters
    to [_avg_deg_conn] too: the loop runs over the dictionary
    [degree_method(node_iter)], so a node named twice in the selection is
    added to the sums of its class once, and the sums are sums of
    integers, the same in every order. *)
Theorem avg_deg_conn_selection_set G dm l l' :
  (∀ n, is_Some (adj G !! n) → n ∈ l ↔ n ∈ l') →
  _avg_deg_conn G dm (Some l) false = _avg_deg_conn G dm (Some l') false
  ∧ _avg_deg_conn G dm (Some (nodes_of G)) false
    = _avg_deg_conn G dm None false.
Proof.
  intros Hll. split; apply _avg_deg_conn_selection_set; intros n.
  - rewrite !elem_of_nbunch_iter. specialize (Hll n). tauto.
  - rewrite !elem_of_nbunch_iter, elem_of_nodes_of. tauto.
Qed.

Lemma avg_deg_conn_selection_set_witness :
  _avg_deg_conn path4 G_degree (Some [3; 1; 1; 7]) false
  = _avg_deg_conn path4 G_degree (Some [1; 3]) false
  ∧ _avg_deg_conn path4 G_degree (Some (nodes_of path4)) false
    = _avg_deg_conn path4 G_degree None false.
Proof.
  apply (avg_deg_conn_selection_set path4 G_degree [3; 1; 1; 7] [1; 3]).
  exact same_nodes_3117_13.
Defined.

(** X5: a selection none of whose members is a node of the graph, the empty one
    in particular, is no error: both functions return the empty mapping. *)
Theorem nothing_selected G dm l weighted :
  Forall (λ n, adj G !! n = None) l →
  _average_nbr_deg G dm (Some l) weighted = Ok ∅
  ∧ _avg_deg_conn G dm (Some l) weighted = Ok ∅.
Proof.
  intros Hl.
  assert (nbunch_iter G (Some l) = []) as Hnil.
  { simpl. induction Hl as [|n l Hn _ IH]; [done|].
    rewrite filter_cons_False; [done|]. rewrite Hn. by intros [? ?]. }
  split.
  - unfold _average_nbr_deg. by rewrite Hnil.
  - unfold _avg_deg_conn. rewrite conn_acc_unfold, Hnil.
    unfold degree_dict. simpl. by rewrite !map_to_list_empty.
Qed.

Lemma nothing_selected_witness :
  _average_nbr_deg path4 G_degree (Some [7; 9]) true = Ok ∅
  ∧ _avg_deg_conn path4 G_degree (Some [7; 9]) true = Ok ∅.
Proof.
  apply (nothing_selected path4 G_degree [7; 9] true).
  repeat constructor.
Defined.

(** ** The sums of a degree class *)

Lemma filter_graph_fmap (f : nat → nat) (j : nat) (l : list nat) :
  filter (λ nk : nat * nat, nk.2 = j) ((λ n, (n, f n)) <$> l)
  = (λ n, (n, f n)) <$> filter (λ n, f n = j) l.
Proof.
  induction l as [|n l IH]; [done|].
  rewrite fmap_cons, !filter_cons. simpl. rewrite IH.
  by destruct (decide (f n = j)).
Qed.

Lemma conn_fold_lookup G dm weighted items acc j :
  default 0%Qc ((foldl (conn_step G dm weighted) acc items).1 !! j)
  = (default 0%Qc (acc.1 !! j)
     + Qc_sum ((λ nk : nat * nat, nbr_total G dm nk.1 weighted)
                 <$> filter (λ nk : nat * nat, nk.2 = j) items))%Qc
  ∧ default 0%Qc ((foldl (conn_step G dm weighted) acc items).2 !! j)
    = (default 0%Qc (acc.2 !! j)
       + Qc_sum (norm_term G dm weighted
                   <$> filter (λ nk : nat * nat, nk.2 = j) items))%Qc.
Proof.
  revert acc. induction items as [|[n k] items IH]; intros [dsum dnorm].
  - simpl. by rewrite !Qcplus_0_r.
  - cbn [foldl]. destruct (IH (conn_step G dm weighted (dsum, dnorm) (n, k)))
      as [-> ->].
    rewrite conn_step_eq. cbn [fst snd]. rewrite !dd_add_lookup, filter_cons.
    cbn [snd]. destruct (decide (k = j)) as [->|Hne].
    + rewrite !(decide_True (P := j = j)) by done. simpl.
      by rewrite !Qcplus_assoc.
    + by rewrite !(decide_False (P := j = k)) by done.
Qed.

Lemma conn_class_items G dm nodes k :
  filter (λ nk : nat * nat, nk.2 = k)
    (map_to_list (degree_dict dm G (nbunch_iter G nodes)))
  ≡ₚ (λ n, (n, degree_count dm G n)) <$> class_of G dm nodes k.
Proof.
  rewrite conn_items, filter_graph_fmap. done.
Qed.

Lemma conn_acc_class G dm nodes weighted k :
  default 0%Qc ((conn_acc G dm nodes weighted).1 !! k)
  = Qc_sum ((λ n, nbr_total G dm n weighted) <$> class_of G dm nodes k)
  ∧ default 0%Qc ((conn_acc G dm nodes weighted).2 !! k)
    = Qc_sum ((λ n, degree dm G n weighted) <$> class_of G dm nodes k).
Proof.
  rewrite conn_acc_unfold.
  destruct (conn_fold_lookup G dm weighted
              (map_to_list (degree_dict dm G (nbunch_iter G nodes)))
              (∅, ∅) k) as [-> ->].
  cbn [fst snd]. rewrite lookup_empty. simpl. rewrite !Qcplus_0_l.
  split.
  - rewrite (Qc_sum_perm _ _ (fmap_Permutation _ _ _
                                 (conn_class_items G dm nodes k))).
    by rewrite <-list_fmap_compose.
  - rewrite (Qc_sum_perm _ _ (fmap_Permutation _ _ _
                                 (conn_class_items G dm nodes k))).
    rewrite <-list_fmap_compose. f_equal. apply list_fmap_ext.
    intros n. unfold norm_term, degree. by destruct weighted.
Qed.

Lemma class_of_nonempty_dom G dm nodes weighted k :
  class_of G dm nodes k ≠ [] ↔ k ∈ dom (conn_acc G dm nodes weighted).1.
Proof.
  rewrite conn_acc_dom, elem_of_list_to_set, list_elem_of_fmap.
  unfold class_of, selected. split.
  - intros Hne. destruct (filter _ _) as [|n l] eqn:Hf; [done|].
    assert (n ∈ n :: l) as Hn by left. rewrite <-Hf in Hn.
    apply list_elem_of_filter in Hn as [Hk Hn].
    apply elem_of_elements, elem_of_list_to_set in Hn. by exists n.
  - intros (n & -> & Hn) Hnil.
    assert (n ∈ filter (λ m, degree_count dm G m = degree_count dm G n)
                  (elements (list_to_set (nbunch_iter G nodes) : gset nat)))
      as Hin.
    { apply list_elem_of_filter. split; [done|].
      by apply elem_of_elements, elem_of_list_to_set. }
    rewrite Hnil in Hin. by apply elem_of_nil in Hin.
Qed.

Lemma conn_class_value G dm nodes weighted dc k :
  _avg_deg_conn G dm nodes weighted = Ok dc →
  dc !! k
  = if decide (class_of G dm nodes k = []) then None
    else
      let total :=
        Qc_sum ((λ n, nbr_total G dm n weighted) <$> class_of G dm nodes k) in
      let norm :=
        Qc_sum ((λ n, degree dm G n weighted) <$> class_of G dm nodes k) in
      Some (if decide (0 < total)%Qc then (total / norm)%Qc else total).
Proof.
  rewrite _avg_deg_conn_outcome. case_decide as Hz; [done|]. intros [= <-].
  rewrite map_lookup_imap.
  destruct (conn_acc_class G dm nodes weighted k) as [Hs Hn].
  case_decide as Hc.
  - destruct ((conn_acc G dm nodes weighted).1 !! k) eqn:Hk; [|done].
    exfalso. revert Hc. apply (class_of_nonempty_dom G dm nodes weighted).
    apply elem_of_dom. by eexists.
  - apply (class_of_nonempty_dom G dm nodes weighted), elem_of_dom in Hc
      as [avg Havg].
    rewrite Havg in Hs |- *. simpl in *. unfold conn_value.
    by rewrite Hn, Hs.
Qed.



(** ** More on sums *)

Lemma Qc_sum_zero {A} (f : A → Qc) (l : list A) :
  Forall (λ x, f x = 0%Qc) l → Qc_sum (f <$> l) = 0%Qc.
Proof.
  induction 1 as [|x l Hx _ IH]; [done|].
  rewrite fmap_cons. simpl. by rewrite Hx, IH.
Qed.

Lemma Qc_sum_fmap_nonneg {A} (f : A → Qc) (l : list A) :
  Forall (λ x, (0 ≤ f x)%Qc) l → (0 ≤ Qc_sum (f <$> l))%Qc.
Proof.
  induction 1 as [|x l Hx _ IH]; [done|].
  rewrite fmap_cons. simpl. by apply Qcplus_nonneg_nonneg.
Qed.

Lemma Qc_sum_fmap_pos {A} (f : A → Qc) (l : list A) x :
  Forall (λ x, (0 ≤ f x)%Qc) l → x ∈ l → (0 < f x)%Qc →
  (0 < Qc_sum (f <$> l))%Qc.
Proof.
  intros Hall Hx Hpos. induction Hall as [|y l Hy Hall IH].
  - by apply elem_of_nil in Hx.
  - rewrite fmap_cons. simpl. apply elem_of_cons in Hx as [->|Hx].
    + apply Qcplus_pos_nonneg; [done|]. by apply Qc_sum_fmap_nonneg.
    + apply Qcplus_nonneg_pos; [done|]. by apply IH.
Qed.

Lemma Qc_of_nat_mul (a b : nat) :
  Qc_of_nat (a * b) = (Qc_of_nat a * Qc_of_nat b)%Qc.
Proof. unfold Qc_of_nat. by rewrite Nat2Z.inj_mul, Z2Qc_inj_mul. Qed.

Lemma Qc_of_nat_S (a : nat) : Qc_of_nat (S a) = (1 + Qc_of_nat a)%Qc.
Proof.
  unfold Qc_of_nat. rewrite Nat2Z.inj_succ, <-Z.add_1_l, Z2Qc_inj_add.
  by rewrite Z2Qc_inj_1.
Qed.

Lemma Qc_of_nat_le (a b : nat) : a ≤ b → (Qc_of_nat a ≤ Qc_of_nat b)%Qc.
Proof.
  intros Hab. unfold Qc_of_nat. apply (proj1 (Z2Qc_inj_le _ _)). lia.
Qed.

Lemma Qc_sum_const {A} (c : Qc) (l : list A) :
  Qc_sum ((λ _, c) <$> l) = (Qc_of_nat (length l) * c)%Qc.
Proof.
  induction l as [|x l IH].
  - simpl. by rewrite Qc_of_nat_0, Qcmult_0_l.
  - rewrite fmap_cons. cbn [Qc_sum foldr length]. fold (Qc_sum ((λ _, c) <$> l)).
    rewrite IH, Qc_of_nat_S. ring.
Qed.

Lemma Qc_div_le (a b d : Qc) :
  (0 < b)%Qc → (a ≤ d * b)%Qc → (a / b ≤ d)%Qc.
Proof.
  intros Hb Hab.
  assert (d = (d * b) / b)%Qc as Hd.
  { field. by apply not_symmetry, Qclt_not_eq. }
  rewrite Hd. unfold Qcdiv.
  apply Qcmult_le_mono_nonneg_r; [|done].
  apply Qclt_le_weak. by apply Qcinv_pos.
Qed.

(** ** Where the connectivity divides by zero, and where it cannot *)

Lemma in_degree_nbr_total_pos G n :
  closed G → mirrored G → getitem G n ≠ ∅ →
  (0 < nbr_total G G_in_degree n false)%Qc.
Proof.
  intros Hc Hm Hne. rewrite nbr_total_succ_total by done.
  unfold succ_total. apply Qc_of_nat_pos.
  destruct (map_to_list (getitem G n)) as [|[m a] l] eqn:Hl.
  { by apply map_to_list_empty_iff in Hl. }
  assert (getitem G n !! m = Some a) as Hma.
  { apply elem_of_map_to_list. rewrite Hl. by left. }
  assert (is_Some (getpred G m !! n)) as [b Hb].
  { unfold getitem in Hma. destruct (adj G !! n) as [nbrs|] eqn:Hn.
    - simpl in Hma.
      apply (map_Forall_lookup_1 _ _ _ _ (map_Forall_lookup_1 _ _ _ _ Hm Hn)
               Hma).
    - simpl in Hma. by rewrite lookup_empty in Hma. }
  assert (0 < degree_count G_in_degree G m) as Hpos.
  { simpl. destruct (size (getpred G m)) eqn:Hs; [|lia].
    apply map_size_empty_iff in Hs. by rewrite Hs, lookup_empty in Hb. }
  rewrite !fmap_cons. simpl. simpl in Hpos. lia.
Qed.

(** X7: [average_in_degree_connectivity] without weights raises
    [ZeroDivisionError] on every directed graph in which some selected node
    has no predecessor and at least one successor: the class of in-degree 0
    then has a positive sum and the norm 0. *)
Theorem in_degree_connectivity_zero_division G nodes n :
  is_directed G = true → closed G → mirrored G →
  n ∈ nbunch_iter G nodes → getpred G n = ∅ → getitem G n ≠ ∅ →
  average_in_degree_connectivity G nodes false = Raise ZeroDivisionError.
Proof.
  intros Hd Hc Hm Hn Hpred Hsucc.
  unfold average_in_degree_connectivity. rewrite Hd. simpl.
  rewrite _avg_deg_conn_outcome. rewrite decide_True; [done|].
  assert (n ∈ class_of G G_in_degree nodes 0) as Hclass.
  { apply list_elem_of_filter. split.
    - simpl. by rewrite Hpred.
    - by apply elem_of_elements, elem_of_list_to_set. }
  destruct (conn_acc_class G G_in_degree nodes false 0) as [Hs Hz].
  assert (0 ∈ dom (conn_acc G G_in_degree nodes false).1) as Hdom.
  { apply class_of_nonempty_dom. intros Hnil. rewrite Hnil in Hclass.
    by apply elem_of_nil in Hclass. }
  apply elem_of_dom in Hdom as [avg Havg]. rewrite Havg in Hs. simpl in Hs.
  apply Exists_exists. exists (0, avg). split; [by apply elem_of_map_to_list|].
  split; simpl.
  - rewrite Hs.
    apply (Qc_sum_fmap_pos (λ m, nbr_total G G_in_degree m false) _ n);
      [|done|by apply in_degree_nbr_total_pos].
    apply Forall_forall. intros m _. apply Qc_of_nat_nonneg.
  - rewrite Hz. apply Qc_sum_zero, Forall_forall.
    intros m [Hk _]%list_elem_of_filter. unfold degree.
    rewrite Hk. apply Qc_of_nat_0.
Qed.

Lemma in_degree_connectivity_zero_division_witness :
  average_in_degree_connectivity dipath4 (Some [0; 2]) false
  = Raise ZeroDivisionError.
Proof.
  apply (in_degree_connectivity_zero_division dipath4 (Some [0; 2]) 0).
  - reflexivity.
  - concrete.
  - concrete.
  - in_list.
  - reflexivity.
  - intros H. apply (f_equal size) in H. vm_compute in H. discriminate H.
Defined.

(** X8: with the plain or the out-degree accessor and without weights
    [_avg_deg_conn] never divides by zero: a class with a positive sum has
    nodes with neighbors, so its degree and its norm are positive.  It
    returns a mapping whose keys are the degrees of the selected nodes. *)
Theorem unweighted_connectivity_returns G dm nodes :
  dm ≠ G_in_degree →
  ∃ dc, _avg_deg_conn G dm nodes false = Ok dc
        ∧ dom dc = list_to_set (degree_count dm G <$> nbunch_iter G nodes).
Proof.
  intros Hdm. rewrite _avg_deg_conn_outcome.
  rewrite decide_False by by apply conn_inv_no_zero_norm, conn_acc_inv.
  eexists. split; [done|].
  rewrite <-conn_acc_dom with (weighted := false).
  apply dom_imap_L. intros k. rewrite elem_of_dom. split.
  - intros [avg Havg]. by exists avg.
  - intros (avg & Havg & _). by exists avg.
Qed.

Lemma unweighted_connectivity_returns_witness :
  ∃ dc, _avg_deg_conn dipath4 G_out_degree None false = Ok dc
        ∧ dom dc
          = list_to_set (degree_count G_out_degree dipath4
                           <$> nbunch_iter dipath4 None).
Proof.
  apply (unweighted_connectivity_returns dipath4 G_out_degree None).
  discriminate.
Defined.

(** ** The connectivity without weights *)

Lemma class_of_selected G dm nodes k n :
  n ∈ class_of G dm nodes k
  ↔ degree_count dm G n = k ∧ n ∈ nbunch_iter G nodes.
Proof.
  unfold class_of, selected.
  by rewrite list_elem_of_filter, elem_of_elements, elem_of_list_to_set.
Qed.

(** X9: without weights the norm of the class of degree [k] is [k] times the
    number of selected nodes of degree [k], and the value [_avg_deg_conn]
    returns at [k] is the quotient of two integers: the neighbor sums of
    these nodes added up, over that norm; it is 0 when the sum is 0. *)
Theorem unweighted_connectivity_quotient G dm nodes dc k :
  _avg_deg_conn G dm nodes false = Ok dc →
  class_of G dm nodes k ≠ [] →
  default 0%Qc ((conn_acc G dm nodes false).2 !! k)
  = Qc_of_nat (k * length (class_of G dm nodes k))
  ∧ dc !! k
    = Some (let total :=
              sum_list (nbr_count_total G dm <$> class_of G dm nodes k) in
            if decide (0 < total)
            then (Qc_of_nat total
                  / Qc_of_nat (k * length (class_of G dm nodes k)))%Qc
            else 0%Qc).
Proof.
  intros Hdc Hne.
  set (cl := class_of G dm nodes k) in *.
  assert (Qc_sum ((λ n, degree dm G n false) <$> cl)
          = Qc_of_nat (k * length cl)) as Hnorm.
  { rewrite (Forall_fmap_ext_1 _ (λ _, Qc_of_nat k)).
    - by rewrite Qc_sum_const, Qc_of_nat_mul, Qcmult_comm.
    - apply Forall_forall. intros n [Hn _]%class_of_selected.
      unfold degree. by rewrite Hn. }
  assert (Qc_sum ((λ n, nbr_total G dm n false) <$> cl)
          = Qc_of_nat (sum_list (nbr_count_total G dm <$> cl))) as Htotal.
  { by rewrite <-Qc_sum_of_nat. }
  split.
  - destruct (conn_acc_class G dm nodes false k) as [_ ->]. exact Hnorm.
  - rewrite (conn_class_value G dm nodes false dc k Hdc).
    rewrite decide_False by done. cbn zeta. fold cl.
    rewrite Hnorm, Htotal. f_equal.
    destruct (decide (0 < sum_list (nbr_count_total G dm <$> cl)))
      as [Hpos|Hzero].
    + by rewrite decide_True by by apply Qc_of_nat_pos.
    + rewrite decide_False by by rewrite Qc_of_nat_pos.
      assert (sum_list (nbr_count_total G dm <$> cl) = 0) as -> by lia.
      apply Qc_of_nat_0.
Qed.

Lemma unweighted_connectivity_quotient_witness :
  default 0%Qc ((conn_acc path4 G_degree None false).2 !! 2)
  = Qc_of_nat (2 * length (class_of path4 G_degree None 2))
  ∧ (list_to_map [(1, Qc_of_Z 2); (2, Q2Qc (Qmake 3 2))] : gmap nat Qc) !! 2
    = Some (let total :=
              sum_list (nbr_count_total path4 G_degree
                          <$> class_of path4 G_degree None 2) in
            if decide (0 < total)
            then (Qc_of_nat total
                  / Qc_of_nat (2 * length (class_of path4 G_degree None 2)))%Qc
            else 0%Qc).
Proof.
  apply (unweighted_connectivity_quotient path4 G_degree None _ 2).
  - apply values_of_inj. vm_compute. reflexivity.
  - intros H. apply (f_equal length) in H. vm_compute in H. discriminate H.
Defined.

(** ** A bound on the per-node average *)

Lemma sum_list_le_length (D : nat) (l : list nat) :
  Forall (λ d, d ≤ D) l → sum_list l ≤ length l * D.
Proof. induction 1 as [|d l Hd _ IH]; simpl; lia. Qed.

Lemma nbrdeg_of_elem G dm n nbr d :
  nbrdeg_of G dm n !! nbr = Some d →
  is_Some (getitem G n !! nbr) ∧ d = degree_count dm G nbr.
Proof.
  unfold nbrdeg_of. rewrite degree_dict_lookup.
  case_decide as Hin; [|done]. intros [= <-]. split; [|done].
  apply elem_of_nbunch_iter in Hin as [_ Hin].
  apply list_elem_of_fmap in Hin as ([m a] & -> & Hm%elem_of_map_to_list).
  by eexists.
Qed.

Lemma nbrdeg_of_size G dm n : size (nbrdeg_of G dm n) ≤ size (getitem G n).
Proof.
  rewrite <-!(size_dom (D := gset nat)). apply subseteq_size.
  intros nbr [d Hd]%elem_of_dom.
  apply nbrdeg_of_elem in Hd as [Hnbr _]. by apply elem_of_dom.
Qed.

Lemma getitem_size_le_degree G dm n :
  dm ≠ G_in_degree → size (getitem G n) ≤ degree_count dm G n.
Proof.
  intros Hdm. destruct dm; simpl; [|done|done].
  destruct (is_directed G); lia.
Qed.

(** X10: without weights, and with the plain or the out-degree accessor, the
    value [_average_nbr_deg] gives a node is at most the largest degree among
    its neighbors. *)
Theorem average_at_most_max_degree G dm nodes r n v D :
  dm ≠ G_in_degree →
  _average_nbr_deg G dm nodes false = Ok r →
  r !! n = Some v →
  (∀ nbr, is_Some (getitem G n !! nbr) → degree_count dm G nbr ≤ D) →
  (v ≤ Qc_of_nat D)%Qc.
Proof.
  intros Hdm Hr Hv HD.
  destruct (_average_nbr_deg_ok G dm nodes false) as (r' & Hr' & Hlook).
  rewrite Hr in Hr'. injection Hr' as <-.
  rewrite Hlook in Hv. case_decide; [|done]. injection Hv as <-.
  assert (sum_list (map_to_list (nbrdeg_of G dm n)).*2
          ≤ degree_count dm G n * D) as Hsum.
  { etrans; [apply (sum_list_le_length D)|].
    - apply Forall_fmap, Forall_forall.
      intros [nbr d] Hd%elem_of_map_to_list. simpl.
      apply nbrdeg_of_elem in Hd as [Hnbr ->]. by apply HD.
    - rewrite length_fmap, length_map_to_list.
      pose proof (nbrdeg_of_size G dm n).
      pose proof (getitem_size_le_degree G dm n Hdm). nia. }
  unfold avg_nbr_value, degree, nbr_total. case_decide as Hpos.
  - apply Qc_div_le; [done|]. rewrite <-Qc_of_nat_mul.
    apply Qc_of_nat_le. lia.
  - apply Qc_of_nat_le.
    assert (degree_count dm G n = 0) as Hz.
    { destruct (degree_count dm G n) eqn:Hdeg; [done|].
      exfalso. apply Hpos, Qc_of_nat_pos. lia. }
    rewrite Hz in Hsum. lia.
Qed.

Lemma is_Some_keys (m : gmap nat (option Qc)) (k : nat) :
  is_Some (m !! k) → In k (map_to_list m).*1.
Proof.
  intros [a Ha]. apply list_elem_of_In, list_elem_of_fmap.
  exists (k, a). split; [done|]. by apply elem_of_map_to_list.
Qed.

Lemma average_at_most_max_degree_witness :
  (Q2Qc (Qmake 3 2) ≤ Qc_of_nat 2)%Qc.
Proof.
  assert (_average_nbr_deg path4 G_degree None false
          = Ok (list_to_map [(0, Qc_of_Z 2); (1, Q2Qc (Qmake 3 2));
                             (2, Q2Qc (Qmake 3 2)); (3, Qc_of_Z 2)])) as Hr.
  { apply values_of_inj. vm_compute. reflexivity. }
  apply (average_at_most_max_degree path4 G_degree None _ 1 _ 2
           ltac:(discriminate) Hr).
  - reflexivity.
  - intros nbr Hnbr%is_Some_keys. vm_compute in Hnbr.
    destruct Hnbr as [<-|[<-|[]]]; vm_compute; lia.
Defined.

(** With the in-degree accessor the bound fails: in the graph 3 -> 0,
    0 -> 1, 0 -> 2 node 0 has in-degree 1 and two successors of in-degree 1,
    and its value is 2.0. *)
Example in_degree_average_exceeds_max :
  values_of (average_neighbor_in_degree fork (Some [0]) false)
  = Ok (list_to_map [(0, Qmake 2 1)]).
Proof. vm_compute. reflexivity. Qed.

(** ** Weights that are all 1 *)

Lemma weight_sum_unit (nbrs : gmap nat (option Qc)) :
  map_Forall (λ _ a, get_weight a = 1%Qc) nbrs →
  weight_sum nbrs = Qc_of_nat (size nbrs).
Proof.
  intros Hu. unfold weight_sum. rewrite <-list_fmap_compose.
  rewrite (Forall_fmap_ext_1 _ (λ _, 1%Qc)).
  - by rewrite Qc_sum_const, length_map_to_list, Qcmult_1_r.
  - apply Forall_forall. intros [m a] Hm%elem_of_map_to_list. simpl.
    by apply (map_Forall_lookup_1 _ _ _ _ Hu Hm).
Qed.

Lemma unit_weights_getitem G n :
  unit_weights G → map_Forall (λ _ a, get_weight a = 1%Qc) (getitem G n).
Proof.
  intros [Hu _]. unfold getitem. destruct (adj G !! n) as [nbrs|] eqn:Hn.
  - apply (map_Forall_lookup_1 _ _ _ _ Hu Hn).
  - apply map_Forall_empty.
Qed.

Lemma unit_weights_getpred G n :
  unit_weights G → map_Forall (λ _ a, get_weight a = 1%Qc) (getpred G n).
Proof.
  intros [_ Hu]. unfold getpred. destruct (pred G !! n) as [nbrs|] eqn:Hn.
  - apply (map_Forall_lookup_1 _ _ _ _ Hu Hn).
  - apply map_Forall_empty.
Qed.

Lemma unit_weights_degree G dm n :
  unit_weights G → degree dm G n true = degree dm G n false.
Proof.
  intros Hu. unfold degree, degree_weight, degree_count.
  pose proof (weight_sum_unit _ (unit_weights_getitem G n Hu)) as Hs.
  pose proof (weight_sum_unit _ (unit_weights_getpred G n Hu)) as Hp.
  destruct dm; [destruct (is_directed G)|..]; rewrite ?Hs, ?Hp; try done.
  by rewrite Qc_of_nat_add.
Qed.

Lemma unit_weights_edge_weight G n nbr :
  unit_weights G → edge_weight G n nbr = 1%Qc.
Proof.
  intros Hu. unfold edge_weight.
  destruct (getitem G n !! nbr) as [a|] eqn:Ha; [|done]. simpl.
  apply (map_Forall_lookup_1 _ _ _ _ (unit_weights_getitem G n Hu) Ha).
Qed.

Lemma unit_weights_nbr_total G dm n :
  unit_weights G → nbr_total G dm n true = nbr_total G dm n false.
Proof.
  intros Hu. unfold nbr_total.
  induction (map_to_list (nbrdeg_of G dm n)) as [|[nbr d] l IH].
  - simpl. by rewrite Qc_of_nat_0.
  - rewrite !fmap_cons. simpl. simpl in IH.
    rewrite IH, unit_weights_edge_weight, Qc_of_nat_add by done. ring.
Qed.

Lemma foldl_ext_in {A B} (f g : B → A → B) (b : B) (l : list A) :
  (∀ b x, x ∈ l → f b x = g b x) → foldl f b l = foldl g b l.
Proof.
  revert b. induction l as [|x l IH]; intros b Hfg; [done|].
  simpl. rewrite Hfg by left. apply IH. intros. apply Hfg. by right.
Qed.

(** X11: on a graph all of whose edges have the weight 1, set or by default, the
    weighted computations return what the unweighted ones return. *)
Theorem unit_weights_agree G dm nodes :
  unit_weights G →
  _average_nbr_deg G dm nodes true = _average_nbr_deg G dm nodes false
  ∧ _avg_deg_conn G dm nodes true = _avg_deg_conn G dm nodes false.
Proof.
  intros Hu. split.
  - destruct (_average_nbr_deg_ok G dm nodes true) as (r & -> & Hlook).
    destruct (_average_nbr_deg_ok G dm nodes false) as (r' & -> & Hlook').
    f_equal. apply map_eq. intros n. rewrite Hlook, Hlook'.
    unfold avg_nbr_value.
    by rewrite unit_weights_degree, unit_weights_nbr_total.
  - assert (conn_acc G dm nodes true = conn_acc G dm nodes false) as Hacc.
    { rewrite !conn_acc_unfold. apply foldl_ext_in.
      intros [dsum dnorm] [n k] Hnk%elem_of_map_to_list.
      rewrite degree_dict_lookup in Hnk. case_decide; [|done].
      injection Hnk as <-. rewrite !conn_step_eq. f_equal; f_equal.
      + by apply unit_weights_nbr_total.
      + unfold norm_term. cbn [fst snd]. by rewrite unit_weights_degree. }
    by rewrite !_avg_deg_conn_outcome, Hacc.
Qed.

Lemma unit_weights_agree_witness :
  _average_nbr_deg dipath4 G_in_degree None true
  = _average_nbr_deg dipath4 G_in_degree None false
  ∧ _avg_deg_conn dipath4 G_in_degree None true
    = _avg_deg_conn dipath4 G_in_degree None false.
Proof.
  apply (unit_weights_agree dipath4 G_in_degree None). concrete.
Defined.
